(** * Express-jobly: query builders, repositories and authorization middleware

    A shallow embedding of
      - helpers/sql.js   ([sqlForPartialUpdate]),
      - models/company.js and models/job.js (module [Company], module [Job]),
      - middleware/auth.js ([ensureLoggedIn], [isAdminActionRoute],
        [ensureAuthenticatedAsSelf]),
    followed by the properties of the specification that concern them. *)

From Stdlib Require Import String Ascii List ZArith Lia.
From Stdlib Require Import Decimal DecimalFacts DecimalNat DecimalString.
From stdpp Require Import base option list gmap strings.

(* ===================================================================== *)
(** * JavaScript values *)
(* ===================================================================== *)

(** The values that travel through the builders: query-string parameters,
    request bodies and bind values.  Numbers are the integers. *)
Inductive jsval : Type :=
  | JUndefined
  | JNull
  | JBool (b : bool)
  | JNum (n : Z)
  | JStr (s : string).

(** The double quote character, as a one-character string. *)
Definition dq : string := String (ascii_of_nat 34) EmptyString.

(** The line feed, as a one-character string. *)
Definition nl : string := String (ascii_of_nat 10) EmptyString.

(** [String(n)] for a non-negative integer, as in [`$${idx + 1}`]. *)
Definition nat_to_string (n : nat) : string :=
  NilZero.string_of_uint (Nat.to_uint n).

(** [if (v)]: JavaScript truthiness. *)
Definition truthy (v : jsval) : bool :=
  match v with
  | JUndefined | JNull => false
  | JBool b => b
  | JNum n => negb (Z.eqb n 0)
  | JStr s => negb (String.eqb s EmptyString)
  end.

(** [`${v}`]: conversion to a string inside a template literal. *)
Definition toString (v : jsval) : string :=
  match v with
  | JUndefined => "undefined"
  | JNull => "null"
  | JBool true => "true"
  | JBool false => "false"
  | JNum n => NilZero.string_of_int (Z.to_int n)
  | JStr s => s
  end.

(** [v !== undefined]. *)
Definition defined (v : jsval) : bool :=
  match v with
  | JUndefined => false
  | _ => true
  end.

(** An object as it is iterated: its own entries, in iteration order. *)
Abbreviation object := (list (string * jsval)).

Definition Object_keys (o : object) : list string := map fst o.
Definition Object_values (o : object) : list jsval := map snd o.

(** [const { k } = o] on an object used as a dictionary. *)
Definition prop (o : gmap string jsval) (k : string) : jsval :=
  default JUndefined (o !! k).

(** [arr.map((x, idx) => f(x, idx))], the index starting at [idx]. *)
Fixpoint map_from {A B : Type} (f : A -> nat -> B) (idx : nat) (arr : list A)
  : list B :=
  match arr with
  | [] => []
  | x :: rest => f x idx :: map_from f (S idx) rest
  end.

Definition Array_map {A B : Type} (f : A -> nat -> B) (arr : list A) : list B :=
  map_from f 0 arr.

(** [arr.join(sep)] on an array of strings. *)
Fixpoint join (sep : string) (arr : list string) : string :=
  match arr with
  | [] => EmptyString
  | [x] => x
  | x :: rest => x +:+ sep +:+ join sep rest
  end.

(* ===================================================================== *)
(** * Errors (expressError.js) *)
(* ===================================================================== *)

(** The error classes the modelled code throws, each with its message;
    [TypeError] is the engine's own (a property read on [undefined]), and
    [DbError] a failure raised by the persistence executor. *)
Inductive error : Type :=
  | BadRequestError (msg : string)
  | NotFoundError (msg : string)
  | UnauthorizedError (msg : string)
  | ForbiddenError (msg : string)
  | TypeError
  | DbError (msg : string).

(** A computation that returns or throws. *)
Definition result (A : Type) : Type := error + A.

(* ===================================================================== *)
(** * helpers/sql.js *)
(* ===================================================================== *)

Record setClause : Type := { setCols : string; values : list jsval }.

(** The text a template literal prints for a built-in function. *)
Definition native (name : string) : string :=
  "function " +:+ name +:+ "() { [native code] }".

(** [Object.prototype]: the members every plain object inherits, each with
    the text a template literal prints for it.  All are functions but
    [__proto__], which reads as [Object.prototype] itself. *)
Definition Object_prototype : list (string * string) :=
  [ ("constructor", native "Object");
    ("__defineGetter__", native "__defineGetter__");
    ("__defineSetter__", native "__defineSetter__");
    ("hasOwnProperty", native "hasOwnProperty");
    ("__lookupGetter__", native "__lookupGetter__");
    ("__lookupSetter__", native "__lookupSetter__");
    ("isPrototypeOf", native "isPrototypeOf");
    ("propertyIsEnumerable", native "propertyIsEnumerable");
    ("toString", native "toString");
    ("valueOf", native "valueOf");
    ("__proto__", "[object Object]");
    ("toLocaleString", native "toLocaleString") ].

(** The inherited member of that name, if there is one. *)
Definition Object_prototype_member (name : string) : option string :=
  snd <$> List.find (fun member => String.eqb (fst member) name)
            Object_prototype.

(** [jsToSql[colName] || colName].  The table is a plain object holding
    column names: the property read is the table's own entry when it has
    one, and the member inherited from [Object.prototype] otherwise.  An
    inherited member is truthy and is printed by the template literal; an
    own entry is taken when it is not the empty string; in every other case
    the key itself is the column. *)
Definition columnName (jsToSql : gmap string string) (colName : string)
  : string :=
  match jsToSql !! colName with
  | Some translated =>
      if String.eqb translated EmptyString then colName else translated
  | None =>
      match Object_prototype_member colName with
      | Some inherited => inherited
      | None => colName
      end
  end.

Definition sqlForPartialUpdate (dataToUpdate : object)
    (jsToSql : gmap string string) : result setClause :=
  let keys := Object_keys dataToUpdate in
  if Nat.eqb (length keys) 0 then inl (BadRequestError "No data")
  else
    let cols :=
      Array_map
        (fun colName idx =>
           dq +:+ columnName jsToSql colName +:+ dq +:+ "=$"
              +:+ nat_to_string (idx + 1))
        keys in
    inr {| setCols := join ", " cols;
           values := Object_values dataToUpdate |}.

(* ===================================================================== *)
(** * The persistence executor (db.js) *)
(* ===================================================================== *)

(** [lines] writes a multi-line template literal line by line, [q] a
    double-quoted identifier inside one. *)
Definition lines (ls : list string) : string := join nl ls.
Definition q (s : string) : string := dq +:+ s +:+ dq.

Section Persistence.
Context {DB : Type}.

(** [db.query(text, values)]: the executor is a collaborator of the
    repositories.  It takes a query text, the ordered bind values and the
    stored state, and gives back the result rows or a failure, and the
    stored state afterwards. *)
Definition executor : Type :=
  string -> list jsval -> DB -> result (list object) * DB.

(** What a repository operation runs against: the stored state, and the
    round-trips issued so far, oldest first. *)
Record world : Type :=
  World { store : DB; issued : list (string * list jsval) }.

(** Repository operations read and change the world, and return or throw. *)
Definition M (A : Type) : Type := world -> result A * world.

Definition throw {A : Type} (e : error) : M A := fun w => (inl e, w).

(** A pure computation that returns or throws, run inside [M]. *)
Definition lift {A : Type} (r : result A) : M A := fun w => (r, w).

(** [await db.query(text, vals)], giving [result.rows]. *)
Definition query (db_query : executor) (text : string) (vals : list jsval)
  : M (list object) :=
  fun w =>
    let '(r, s) := db_query text vals (store w) in
    (r, {| store := s; issued := issued w ++ [(text, vals)] |}).

#[global] Instance M_ret : MRet M := fun A x w => (inr x, w).

#[global] Instance M_bind : MBind M := fun A B f m w =>
  match m w with
  | (inl e, w') => (inl e, w')
  | (inr x, w') => f x w'
  end.

End Persistence.

Arguments executor : clear implicits.
Arguments world : clear implicits.
Arguments M : clear implicits.

(* ===================================================================== *)
(** * models/company.js *)
(* ===================================================================== *)

Module Company.
Section WithExecutor.
Context {DB : Type} (db_query : executor DB).

Definition duplicateCheck_sql : string := lines
  [ "SELECT handle";
    "           FROM companies";
    "           WHERE handle = $1" ].

Definition insert_sql : string := lines
  [ "INSERT INTO companies";
    "           (handle, name, description, num_employees, logo_url)";
    "           VALUES ($1, $2, $3, $4, $5)";
    "           RETURNING handle, name, description, num_employees AS "
      +:+ q "numEmployees" +:+ ", logo_url AS " +:+ q "logoUrl" ].

(** [static async create({ handle, name, description, numEmployees, logoUrl })];
    the value returned is [result.rows[0]], [None] standing for [undefined]. *)
Definition create (data : gmap string jsval) : M DB (option object) :=
  let handle := prop data "handle" in
  let name := prop data "name" in
  let description := prop data "description" in
  let numEmployees := prop data "numEmployees" in
  let logoUrl := prop data "logoUrl" in
  duplicateCheck ← query db_query duplicateCheck_sql [handle];
  match duplicateCheck !! 0%nat with
  | Some _ =>
      throw (BadRequestError ("Duplicate company: " +:+ toString handle))
  | None =>
      rows ← query db_query insert_sql
               [handle; name; description; numEmployees; logoUrl];
      let company := rows !! 0%nat in
      mret company
  end.

Definition findAll_base : string := lines
  [ EmptyString;
    "    SELECT handle,";
    "            name,";
    "            description,";
    "            num_employees AS " +:+ q "numEmployees" +:+ ",";
    "            logo_url AS " +:+ q "logoUrl";
    "        FROM companies" ].

(** The body of [findAll] up to the round-trip: the query text and the bind
    values it has built.  [query] and [values] are the two mutable locals,
    threaded through the three [if] blocks. *)
Definition findAll_build (filters : gmap string jsval) : string * list jsval :=
  let name := prop filters "name" in
  let minEmployees := prop filters "minEmployees" in
  let maxEmployees := prop filters "maxEmployees" in
  let query := findAll_base in
  let values : list jsval := [] in
  let '(query, values) :=
    if truthy name then
      (query +:+ " WHERE LOWER(name) LIKE LOWER($1)",
       values ++ [JStr ("%" +:+ toString name +:+ "%")])
    else (query, values) in
  let '(query, values) :=
    if truthy minEmployees then
      let query :=
        if Nat.eqb (length values) 0 then
          query +:+ " WHERE num_employees >= $2"
        else
          query +:+ " AND num_employees >= $"
                +:+ nat_to_string (length values + 1) in
      (query, values ++ [minEmployees])
    else (query, values) in
  let '(query, values) :=
    if truthy maxEmployees then
      let query :=
        if Nat.eqb (length values) 0 then
          query +:+ " WHERE num_employees <=$2"
        else
          query +:+ " AND num_employees <= $"
                +:+ nat_to_string (length values + 1) in
      (query, values ++ [maxEmployees])
    else (query, values) in
  let query := query +:+ " ORDER BY name" in
  (query, values).

(** [static async findAll(filters = {})] *)
Definition findAll (filters : gmap string jsval) : M DB (list object) :=
  let '(query_text, values) := findAll_build filters in
  companiesRes ← query db_query query_text values;
  mret companiesRes.

Definition update_sql (setCols handleVarIdx : string) : string := lines
  [ "UPDATE companies ";
    "                      SET " +:+ setCols +:+ " ";
    "                      WHERE handle = " +:+ handleVarIdx +:+ " ";
    "                      RETURNING handle, ";
    "                                name, ";
    "                                description, ";
    "                                num_employees AS " +:+ q "numEmployees" +:+ ", ";
    "                                logo_url AS " +:+ q "logoUrl" ].

Definition jsToSql : gmap string string :=
  {[ "numEmployees" := "num_employees"; "logoUrl" := "logo_url" ]}.

(** [static async update(handle, data)] *)
Definition update (handle : jsval) (data : object) : M DB object :=
  clause ← lift (sqlForPartialUpdate data jsToSql);
  let handleVarIdx := "$" +:+ nat_to_string (length (values clause) + 1) in
  let querySql := update_sql (setCols clause) handleVarIdx in
  rows ← query db_query querySql (values clause ++ [handle]);
  match rows !! 0%nat with
  | None => throw (NotFoundError ("No company: " +:+ toString handle))
  | Some company => mret company
  end.

End WithExecutor.
End Company.

(* ===================================================================== *)
(** * models/job.js *)
(* ===================================================================== *)

Module Job.
Section WithExecutor.
Context {DB : Type} (db_query : executor DB).

Definition duplicateCheck_sql : string := lines
  [ "SELECT id";
    "                FROM jobs";
    "                WHERE title = $1 AND company_handle = $2" ].

Definition insert_sql : string := lines
  [ "INSERT INTO jobs";
    "                (title, salary, equity, company_handle)";
    "                VALUES ($1, $2, $3, $4)";
    "            RETURNING id, title, salary, equity, company_handle AS "
      +:+ q "companyHandle" ].

(** [static async create({ title, salary, equity, companyHandle })] *)
Definition create (data : gmap string jsval) : M DB (option object) :=
  let title := prop data "title" in
  let salary := prop data "salary" in
  let equity := prop data "equity" in
  let companyHandle := prop data "companyHandle" in
  duplicateCheck ← query db_query duplicateCheck_sql [title; companyHandle];
  match duplicateCheck !! 0%nat with
  | Some _ => throw (BadRequestError ("Duplicate job: " +:+ toString title))
  | None =>
      rows ← query db_query insert_sql [title; salary; equity; companyHandle];
      let job := rows !! 0%nat in
      mret job
  end.

Definition findAll_base : string := lines
  [ EmptyString;
    "      SELECT id,";
    "             title,";
    "             salary,";
    "             equity,";
    "             company_handle AS " +:+ q "companyHandle";
    "      FROM jobs" ].

(** The body of [findAll] up to the round-trip. *)
Definition findAll_build (filters : gmap string jsval) : string * list jsval :=
  let title := prop filters "title" in
  let minSalary := prop filters "minSalary" in
  let hasEquity := prop filters "hasEquity" in
  let values : list jsval := [] in
  let query := findAll_base in
  let '(query, values) :=
    if truthy title then
      (query +:+ " WHERE LOWER(title) LIKE LOWER($1)",
       values ++ [JStr ("%" +:+ toString title +:+ "%")])
    else (query, values) in
  let '(query, values) :=
    if defined minSalary then
      let query :=
        if Nat.eqb (length values) 0 then
          query +:+ " WHERE salary >= $1"
        else
          query +:+ " AND salary >= $" +:+ nat_to_string (length values + 1) in
      (query, values ++ [minSalary])
    else (query, values) in
  let '(query, values) :=
    if defined hasEquity then
      let query :=
        if Nat.eqb (length values) 0 then
          query +:+ " WHERE equity > 0"
        else
          query +:+ " AND equity > 0" in
      (query, values ++ [hasEquity])
    else (query, values) in
  let query := query +:+ " ORDER BY title" in
  (query, values).

(** [static async findAll(filters = {})] *)
Definition findAll (filters : gmap string jsval) : M DB (list object) :=
  let '(query_text, values) := findAll_build filters in
  jobsRes ← query db_query query_text values;
  mret jobsRes.

Definition update_sql (setCols idVarIdx : string) : string := lines
  [ EmptyString;
    "      UPDATE jobs ";
    "      SET " +:+ setCols;
    "      WHERE id = " +:+ idVarIdx;
    "      RETURNING id, title, salary, equity, company_handle AS "
      +:+ q "companyHandle" ].

(** [static async update(id, data)]; the translation table is the default
    [{}] of [sqlForPartialUpdate]. *)
Definition update (id : jsval) (data : object) : M DB object :=
  clause ← lift (sqlForPartialUpdate data ∅);
  let idVarIdx := "$" +:+ nat_to_string (length (values clause) + 1) in
  let querySql := update_sql (setCols clause) idVarIdx in
  rows ← query db_query querySql (values clause ++ [id]);
  match rows !! 0%nat with
  | None => throw (NotFoundError ("No job with ID: " +:+ toString id))
  | Some job => mret job
  end.

End WithExecutor.
End Job.

(* ===================================================================== *)
(** * Positional placeholders of a query text *)
(* ===================================================================== *)

Definition digit_of (c : ascii) : option nat :=
  let n := nat_of_ascii c in
  if (48 <=? n)%nat && (n <=? 57)%nat then Some (n - 48)%nat else None.

(** [scan s st] reads the placeholders [$<digits>] of [s] from left to
    right.  [st] is [None] outside a placeholder, [Some None] right after a
    dollar sign, and [Some (Some n)] after a dollar sign and digits that
    read [n]. *)
Fixpoint scan (s : string) (st : option (option nat)) : list nat :=
  match s with
  | EmptyString =>
      match st with Some (Some n) => [n] | _ => [] end
  | String c rest =>
      let flush := match st with Some (Some n) => [n] | _ => [] end in
      if Ascii.eqb c "$"%char then flush ++ scan rest (Some None)
      else
        match st, digit_of c with
        | Some acc, Some d =>
            scan rest (Some (Some (10 * default 0%nat acc + d)%nat))
        | _, _ => flush ++ scan rest None
        end
  end.

(** The indices of the positional placeholders of a query text, in the
    order they are written. *)
Definition placeholders (text : string) : list nat := scan text None.

(** Modelled from the spec: the persistence executor (db.js, PostgreSQL
    behind it) takes a parameterized text and an ordered list of bind
    values.  The bind value a placeholder [$i] stands for is the [i]-th of
    the list, counting from one. *)
Definition bound (vals : list jsval) (i : nat) : option jsval :=
  match i with
  | O => None
  | S j => vals !! j
  end.

(* ===================================================================== *)
(** * middleware/auth.js *)
(* ===================================================================== *)

(** [res.locals.user]: the payload of a verified token. *)
Record user : Type := { username : string; isAdmin : bool }.

(** What the middleware reads of [req]; a field a caller left out is
    [None] ([undefined]). *)
Record request : Type :=
  { method : option string;
    originalUrl : option string;
    params : option (gmap string string) }.

(** [res.locals] *)
Record locals : Type := { locals_user : option user }.

(** One call of the continuation: [next()] or [next(err)]. *)
Inductive signal : Type :=
  | Next
  | NextErr (err : error).

(** A middleware body: the calls of [next] it has made, oldest first, and
    whether it then returned or threw. *)
Definition Mw (A : Type) : Type := list signal * result A.

#[global] Instance Mw_ret : MRet Mw := fun A x => ([], inr x).

#[global] Instance Mw_bind : MBind Mw := fun A B f m =>
  match m with
  | (tr, inl e) => (tr, inl e)
  | (tr, inr x) => let '(tr', r) := f x in (tr ++ tr', r)
  end.

Definition raise {A : Type} (e : error) : Mw A := ([], inl e).

Definition liftR {A : Type} (r : result A) : Mw A := ([], r).

(** [next()] and [next(err)]; the continuation itself does not throw. *)
Definition next (err : option error) : Mw unit :=
  match err with
  | None => ([Next], inr tt)
  | Some e => ([NextErr e], inr tt)
  end.

(** [try { body } catch (err) { handler(err) }] *)
Definition try_catch {A : Type} (body : Mw A) (handler : error -> Mw A)
  : Mw A :=
  match body with
  | (tr, inl e) => let '(tr', r) := handler e in (tr ++ tr', r)
  | (tr, inr x) => (tr, inr x)
  end.

Record route : Type := { route_method : string; route_path : string }.

Definition companyActionRoutes : list route :=
  [ {| route_method := "POST"; route_path := "/" |};
    {| route_method := "PATCH"; route_path := "/:handle" |};
    {| route_method := "DELETE"; route_path := "/:handle" |} ].

Definition userActionRoutes : list route :=
  [ {| route_method := "POST"; route_path := "/user" |};
    {| route_method := "GET"; route_path := "/users" |};
    {| route_method := "GET"; route_path := "/:username" |};
    {| route_method := "PATCH"; route_path := "/:username" |};
    {| route_method := "DELETE"; route_path := "/:username" |} ].

(** [arr.some(f)] for a callback that may throw. *)
Fixpoint Array_some {A : Type} (f : A -> result bool) (arr : list A)
  : result bool :=
  match arr with
  | [] => inr false
  | x :: rest =>
      match f x with
      | inl e => inl e
      | inr true => inr true
      | inr false => Array_some f rest
      end
  end.

(** [s.startsWith(p)] *)
Definition startsWith (s p : string) : bool := String.prefix p s.

(** [route.method === req.method && req.originalUrl.startsWith(route.path)];
    reading [startsWith] of an [undefined] URL throws. *)
Definition routeMatches (req : request) (r : route) : result bool :=
  if bool_decide (Some (route_method r) = method req) then
    match originalUrl req with
    | None => inl TypeError
    | Some url => inr (startsWith url (route_path r))
    end
  else inr false.

(** [function isAdminActionRoute(req)]: the two tables concatenated, and
    [some] over them in order. *)
Definition isAdminActionRoute (req : request) : result bool :=
  Array_some (routeMatches req) (companyActionRoutes ++ userActionRoutes).

(** [function ensureAuthenticatedAsSelf(req, res, next)]: reading
    [req.params.username] throws when [req.params] is [undefined]; whatever
    the [try] block throws is handed to [next]. *)
Definition ensureAuthenticatedAsSelf (req : request) (res : locals)
  : Mw unit :=
  try_catch
    (match locals_user res with
     | None => raise (UnauthorizedError "Authentication required")
     | Some u =>
         let authenticatedUsername := username u in
         requestedUsername ←
           liftR (match params req with
                  | None => inl TypeError
                  | Some ps => inr (ps !! "username")
                  end);
         if bool_decide (Some authenticatedUsername ≠ requestedUsername) then
           raise (ForbiddenError
                    "You do not have permission to perform this action.")
         else next None
     end)
    (fun err => next (Some err)).

(** [function ensureLoggedIn(req, res, next)], without its [console.log].
    The call of [ensureAuthenticatedAsSelf] is a statement of the [else]
    branch; [return next()] follows the [if] in both branches. *)
Definition ensureLoggedIn (req : request) (res : locals) : Mw unit :=
  try_catch
    (match locals_user res with
     | None => raise (UnauthorizedError "Authentication required")
     | Some u =>
         adminRoute ← liftR (isAdminActionRoute req);
         _ ← (if adminRoute : bool then
                if negb (isAdmin u) then
                  raise (ForbiddenError "Admin privileges required")
                else mret tt
              else ensureAuthenticatedAsSelf req res);
         next None
     end)
    (fun err => next (Some err)).

(** The calls of the continuation a middleware makes on a request. *)
Definition signals (m : Mw unit) : list signal := fst m.

(** The outcome of the authorization step. *)
Inductive decision : Type :=
  | ALLOW
  | DENY_unauthenticated
  | DENY_forbidden
  | FAIL (err : error).

Definition decision_of (s : signal) : decision :=
  match s with
  | Next => ALLOW
  | NextErr (UnauthorizedError _) => DENY_unauthenticated
  | NextErr (ForbiddenError _) => DENY_forbidden
  | NextErr e => FAIL e
  end.

(** The decision a middleware hands to the router: the first call of the
    continuation is the one the router dispatches on. *)
Definition decide_request (req : request) (res : locals) : option decision :=
  decision_of <$> head (signals (ensureLoggedIn req res)).

(* ===================================================================== *)
(** * An in-memory executor *)
(* ===================================================================== *)

(** The properties below hold for every executor.  To run the repositories
    on concrete stores we also give one executor that keeps two tables in
    memory and understands the four statements of [create]. *)
Record tables : Type := { companies : list object; jobs : list object }.

Definition jsval_eqb (a b : jsval) : bool :=
  match a, b with
  | JUndefined, JUndefined => true
  | JNull, JNull => true
  | JBool x, JBool y => Bool.eqb x y
  | JNum x, JNum y => Z.eqb x y
  | JStr x, JStr y => String.eqb x y
  | _, _ => false
  end.

Fixpoint column (row : object) (c : string) : jsval :=
  match row with
  | [] => JUndefined
  | (k, v) :: rest => if String.eqb k c then v else column rest c
  end.

Definition bind_value (vals : list jsval) (i : nat) : jsval :=
  default JUndefined (bound vals i).

Definition memory_db : executor tables := fun text vals s =>
  if String.eqb text Company.duplicateCheck_sql then
    (inr (map (fun row => [("handle", column row "handle")])
            (List.filter
               (fun row => jsval_eqb (column row "handle") (bind_value vals 1))
               (companies s))),
     s)
  else if String.eqb text Company.insert_sql then
    let row := [ ("handle", bind_value vals 1);
                 ("name", bind_value vals 2);
                 ("description", bind_value vals 3);
                 ("numEmployees", bind_value vals 4);
                 ("logoUrl", bind_value vals 5) ] in
    (inr [row], {| companies := companies s ++ [row]; jobs := jobs s |})
  else if String.eqb text Job.duplicateCheck_sql then
    (inr (map (fun row => [("id", column row "id")])
            (List.filter
               (fun row =>
                  jsval_eqb (column row "title") (bind_value vals 1)
                  && jsval_eqb (column row "companyHandle") (bind_value vals 2))
               (jobs s))),
     s)
  else if String.eqb text Job.insert_sql then
    let row := [ ("id", JNum (Z.of_nat (S (length (jobs s)))));
                 ("title", bind_value vals 1);
                 ("salary", bind_value vals 2);
                 ("equity", bind_value vals 3);
                 ("companyHandle", bind_value vals 4) ] in
    (inr [row], {| companies := companies s; jobs := jobs s ++ [row] |})
  else (inl (DbError "statement not supported"), s).

(** A store with one company and two postings of the same title. *)
Definition sample_store : tables :=
  {| companies :=
       [ [ ("handle", JStr "c1"); ("name", JStr "C1");
           ("description", JStr "Desc1"); ("numEmployees", JNum 1);
           ("logoUrl", JStr "http://c1.img") ] ];
     jobs :=
       [ [ ("id", JNum 1); ("title", JStr "Dev"); ("salary", JNum 100);
           ("equity", JStr "0.1"); ("companyHandle", JStr "c1") ];
         [ ("id", JNum 2); ("title", JStr "Dev"); ("salary", JNum 200);
           ("equity", JStr "0"); ("companyHandle", JStr "c2") ] ] |}.

Definition sample_world : world tables :=
  {| store := sample_store; issued := [] |}.

(* ===================================================================== *)
(** * Sample inputs *)
(* ===================================================================== *)

(** Payloads that repeat a key of the sample store. *)
Definition duplicate_company : gmap string jsval :=
  {[ "handle" := JStr "c1"; "name" := JStr "Again";
     "description" := JStr "Desc"; "numEmployees" := JNum 7;
     "logoUrl" := JStr "http://again.img" ]}.

Definition duplicate_job_c1 : gmap string jsval :=
  {[ "title" := JStr "Dev"; "salary" := JNum 1; "equity" := JStr "0";
     "companyHandle" := JStr "c1" ]}.

Definition duplicate_job_c2 : gmap string jsval :=
  {[ "title" := JStr "Dev"; "salary" := JNum 1; "equity" := JStr "0";
     "companyHandle" := JStr "c2" ]}.

(** The payload and the table of the documentation of
    [sqlForPartialUpdate]. *)
Definition sample_payload : object :=
  [("firstName", JStr "Aliya"); ("age", JNum 32)].

Definition sample_table : gmap string string :=
  {[ "firstName" := "first_name" ]}.

(** The errors of the middleware. *)
Definition forbidden_self : error :=
  ForbiddenError "You do not have permission to perform this action.".

Definition forbidden_admin : error :=
  ForbiddenError "Admin privileges required".

Definition unauthorized : error :=
  UnauthorizedError "Authentication required".

(** A user who is not an admin, and requests by and without that user. *)
Definition sample_user : user := {| username := "u1"; isAdmin := false |}.

Definition logged_in : locals := {| locals_user := Some sample_user |}.

Definition anonymous : locals := {| locals_user := None |}.

Definition req_post : request :=
  {| method := Some "POST"; originalUrl := Some "/jobs";
     params := Some ∅ |}.

Definition req_self : request :=
  {| method := Some "PATCH"; originalUrl := Some "/users/u1";
     params := Some {[ "username" := "u1" ]} |}.

Definition req_other : request :=
  {| method := Some "PATCH"; originalUrl := Some "/users/u2";
     params := Some {[ "username" := "u2" ]} |}.

Definition req_no_param : request :=
  {| method := Some "PATCH"; originalUrl := Some "/jobs/7";
     params := Some {[ "id" := "7" ]} |}.

(* ===================================================================== *)
(** * models/company.js and models/job.js: get and remove *)
(* ===================================================================== *)

Section ReadAndRemove.
Context {DB : Type} (db_query : executor DB).

Definition Company_get_sql : string := lines
  [ "SELECT handle,";
    "                  name,";
    "                  description,";
    "                  num_employees AS " +:+ q "numEmployees" +:+ ",";
    "                  logo_url AS " +:+ q "logoUrl";
    "           FROM companies";
    "           WHERE handle = $1" ].

Definition Company_get_jobs_sql : string := lines
  [ "SELECT id,";
    "              title,";
    "              salary,";
    "              equity";
    "        FROM jobs";
    "        WHERE company_handle = $1" ].

(** [Company.get(handle)].  The company returned is the row of the first
    statement with its [jobs] property set to the rows of the second: the
    pair of the two. *)
Definition Company_get (handle : jsval) : M DB (object * list object) :=
  companyRes ← query db_query Company_get_sql [handle];
  match companyRes !! 0%nat with
  | None => throw (NotFoundError ("No company: " +:+ toString handle))
  | Some company =>
      jobsRes ← query db_query Company_get_jobs_sql [handle];
      mret (company, jobsRes)
  end.

Definition Company_remove_sql : string := lines
  [ "DELETE";
    "           FROM companies";
    "           WHERE handle = $1";
    "           RETURNING handle" ].

(** [Company.remove(handle)]; returns [undefined]. *)
Definition Company_remove (handle : jsval) : M DB unit :=
  rows ← query db_query Company_remove_sql [handle];
  match rows !! 0%nat with
  | None => throw (NotFoundError ("No company: " +:+ toString handle))
  | Some company => mret tt
  end.

Definition Job_get_sql : string := lines
  [ "SELECT id,";
    "              title,";
    "              salary,";
    "              equity,";
    "              company_handle AS " +:+ q "companyHandle";
    "        FROM jobs";
    "        WHERE id = $1" ].

(** [Job.get(id)] *)
Definition Job_get (id : jsval) : M DB object :=
  jobRes ← query db_query Job_get_sql [id];
  match jobRes !! 0%nat with
  | None => throw (NotFoundError ("No job with ID: " +:+ toString id))
  | Some job => mret job
  end.

Definition Job_remove_sql : string := lines
  [ "DELETE";
    "        FROM jobs";
    "        WHERE id = $1";
    "        RETURNING id" ].

(** [Job.remove(id)]; returns [undefined]. *)
Definition Job_remove (id : jsval) : M DB unit :=
  rows ← query db_query Job_remove_sql [id];
  match rows !! 0%nat with
  | None => throw (NotFoundError ("No job with ID: " +:+ toString id))
  | Some job => mret tt
  end.

End ReadAndRemove.

Section RoundTrips.
Context {DB : Type} (db_query : executor DB).

(** The world after one round-trip. *)
Definition after (w : world DB) (text : string) (vals : list jsval)
  : world DB :=
  {| store := snd (db_query text vals (store w));
     issued := issued w ++ [(text, vals)] |}.

End RoundTrips.

(** The statement of an update on a non-empty payload. *)
Definition Company_update_text (data : object) : string :=
  Company.update_sql
    (join ", "
       (Array_map
          (fun colName idx =>
             dq +:+ columnName Company.jsToSql colName +:+ dq +:+ "=$"
                +:+ nat_to_string (idx + 1))
          (Object_keys data)))
    ("$" +:+ nat_to_string (length data + 1)).

Definition Job_update_text (data : object) : string :=
  Job.update_sql
    (join ", "
       (Array_map
          (fun colName idx =>
             dq +:+ columnName ∅ colName +:+ dq +:+ "=$"
                +:+ nat_to_string (idx + 1))
          (Object_keys data)))
    ("$" +:+ nat_to_string (length data + 1)).

(** [w'] comes from [w] by between [lo] and [hi] further round-trips; what
    was issued before is kept. *)
Definition issues_between {DB : Type} (lo hi : nat) (w w' : world DB)
  : Prop :=
  exists l, issued w' = issued w ++ l /\ (lo <= length l <= hi)%nat.

(** An operation started in [w] ended by throwing [e] after exactly one
    round-trip. *)
Definition fails_after_one {DB A : Type} (e : error) (w : world DB)
    (out : result A * world DB) : Prop :=
  fst out = inl e /\ issues_between 1 1 w (snd out).

(** An executor that gives the same answer to every statement and keeps
    no state. *)
Definition constant_db (answer : result (list object)) : executor unit :=
  fun _ _ s => (answer, s).

Definition blank_world : world unit := {| store := tt; issued := [] |}.

(** How often a pattern occurs in a text, overlaps counted. *)
Fixpoint occurrences (pat text : string) : nat :=
  match text with
  | EmptyString => 0
  | String _ rest =>
      (if String.prefix pat text then 1 else 0) + occurrences pat rest
  end.

(** One for [true], none for [false]. *)
Definition once_if (b : bool) : nat := if b then 1%nat else 0%nat.

(** Two filter sets that give the same criteria with different values. *)
Definition filters_net : gmap string jsval :=
  {[ "name" := JStr "net"; "minEmployees" := JNum 5;
     "title" := JStr "dev"; "hasEquity" := JBool true ]}.

Definition filters_lab : gmap string jsval :=
  {[ "name" := JStr "lab"; "minEmployees" := JNum 900;
     "title" := JStr "ops"; "hasEquity" := JBool false ]}.

(** A payload with the keys of the sample payload and other values. *)
Definition sample_payload_other : object :=
  [("firstName", JStr "Bo"); ("age", JNum 1)].

(** Whether some character of a text satisfies a test. *)
Fixpoint any_char (p : ascii -> bool) (text : string) : bool :=
  match text with
  | EmptyString => false
  | String c rest => p c || any_char p rest
  end.

(** An admin, and an update of a company by its handle. *)
Definition sample_admin : user := {| username := "admin"; isAdmin := true |}.

Definition admin_logged_in : locals := {| locals_user := Some sample_admin |}.

Definition req_patch_company : request :=
  {| method := Some "PATCH"; originalUrl := Some "/companies/c1";
     params := Some {[ "handle" := "c1" ]} |}.

(** A verifier that knows one token. *)
Definition sample_verify (token : string) : result user :=
  if String.eqb token "abc.def.ghi" then inr sample_user
  else inl (DbError "invalid token").

(** A user reading the own account. *)
Definition req_get_self : request :=
  {| method := Some "GET"; originalUrl := Some "/users/u1";
     params := Some {[ "username" := "u1" ]} |}.

(** Searches by name and size, by size alone, and by equity. *)
Definition filters_named : gmap string jsval :=
  {[ "name" := JStr "net"; "minEmployees" := JNum 50;
     "maxEmployees" := JNum 500 ]}.

Definition filters_max_only : gmap string jsval :=
  {[ "maxEmployees" := JNum 10 ]}.

Definition filters_equity : gmap string jsval :=
  {[ "title" := JStr "dev"; "minSalary" := JNum 0;
     "hasEquity" := JBool false ]}.

(** Whether a character occurs in a text. *)
Fixpoint mentions (c : ascii) (text : string) : bool :=
  match text with
  | EmptyString => false
  | String d rest => Ascii.eqb d c || mentions c rest
  end.

(* ===================================================================== *)
(** * middleware/auth.js: authenticateJWT *)
(* ===================================================================== *)

(** The white space [String.prototype.trim] removes, among the characters
    of a header value (Latin-1, one character per code unit): tab, line
    feed, vertical tab, form feed, carriage return, space and no-break
    space. *)
Definition isWhiteSpace (c : ascii) : bool :=
  let n := nat_of_ascii c in
  (n =? 9)%nat || (n =? 10)%nat || (n =? 11)%nat || (n =? 12)%nat
  || (n =? 13)%nat || (n =? 32)%nat || (n =? 160)%nat.

Fixpoint trimStart (s : string) : string :=
  match s with
  | EmptyString => EmptyString
  | String c rest => if isWhiteSpace c then trimStart rest else s
  end.

Fixpoint trimEnd (s : string) : string :=
  match s with
  | EmptyString => EmptyString
  | String c rest =>
      match trimEnd rest with
      | EmptyString => if isWhiteSpace c then EmptyString
                       else String c EmptyString
      | kept => String c kept
      end
  end.

(** [s.trim()] *)
Definition trim (s : string) : string := trimEnd (trimStart s).

Fixpoint drop_chars (n : nat) (s : string) : string :=
  match n, s with
  | O, _ => s
  | S m, EmptyString => EmptyString
  | S m, String _ rest => drop_chars m rest
  end.

(** [s.replace(/^[Bb]earer /, "")]: the prefix is removed once, at the
    start only. *)
Definition replaceBearer (s : string) : string :=
  if String.prefix "Bearer " s || String.prefix "bearer " s
  then drop_chars 7 s else s.

(** [function authenticateJWT(req, res, next)].  [headers] is
    [req.headers]; [verify] stands for [token => jwt.verify(token,
    SECRET_KEY)], which returns the payload or throws.  The value returned
    is [res.locals] after the call. *)
Definition authenticateJWT (verify : string -> result user)
    (headers : option (gmap string string)) (res : locals) : Mw locals :=
  try_catch
    (let authHeader := headers ≫= (fun h => h !! "authorization") in
     res' ←
       match authHeader with
       | Some h =>
           if negb (String.eqb h EmptyString) then
             let token := trim (replaceBearer h) in
             payload ← liftR (verify token);
             mret {| locals_user := Some payload |}
           else mret res
       | None => mret res
       end;
     _ ← next None;
     mret res')
    (fun err => _ ← next None; mret res).

(* ===================================================================== *)
(** * routes/jobs.js *)
(* ===================================================================== *)

(** What a handler can throw: an error of the application, or the
    engine's [ReferenceError] on an identifier the module does not bind. *)
Inductive thrown : Type :=
  | Thrown (e : error)
  | ReferenceError (name : string).

(** What goes under the key of a JSON reply. *)
Inductive payload : Type :=
  | Row (r : option object)
  | Rows (rs : list object)
  | Value (v : jsval).

(** How a handler ends: [res.status(code).json({ key: payload })], the
    status being 200 unless set, or [next(err)]. *)
Inductive reply : Type :=
  | Json (status : nat) (key : string) (body : payload)
  | NextWith (t : thrown).

(** The output of [jsonschema.validate]. *)
Record validation : Type := { valid : bool; errors : list string }.

Section JobRoutes.
Context {DB : Type} (db_query : executor DB).

(** The body of a handler's [try] block. *)
Definition Try (A : Type) : Type := world DB -> (thrown + A) * world DB.

#[global] Instance Try_ret : MRet Try := fun A x w => (inr x, w).

#[global] Instance Try_bind : MBind Try := fun A B f m w =>
  match m w with
  | (inl t, w') => (inl t, w')
  | (inr x, w') => f x w'
  end.

(** [await op], for a repository operation. *)
Definition await {A : Type} (op : M DB A) : Try A := fun w =>
  match op w with
  | (inl e, w') => (inl (Thrown e), w')
  | (inr x, w') => (inr x, w')
  end.

(** Reading an identifier that is bound nowhere. *)
Definition unbound {A : Type} (name : string) : Try A :=
  fun w => (inl (ReferenceError name), w).

Definition throwH {A : Type} (e : error) : Try A :=
  fun w => (inl (Thrown e), w).

(** [try { body } catch (err) { return next(err); }] *)
Definition handler (body : Try reply) : world DB -> reply * world DB :=
  fun w =>
    match body w with
    | (inl t, w') => (NextWith t, w')
    | (inr r, w') => (r, w')
    end.

(** [router.post("/", ensureLoggedIn, async function (req, res, next))]:
    the function.  The file has no binding for [jsonschema]. *)
Definition post_job (body : gmap string jsval) : world DB -> reply * world DB :=
  handler
    (validator ← unbound "jsonschema";
     if negb (valid validator) then
       throwH (BadRequestError (join "," (errors validator)))
     else
       job ← await (Job.create db_query body);
       mret (Json 201 "job" (Row job))).

(** [router.get("/", ...)]: the function; [filters] is [req.query]. *)
Definition get_jobs (filters : gmap string jsval)
  : world DB -> reply * world DB :=
  handler
    (jobs ← await (Job.findAll db_query filters);
     mret (Json 200 "jobs" (Rows jobs))).

(** [router.get("/:id", ...)]: the function; [id] is [req.params.id]. *)
Definition get_job (id : jsval) : world DB -> reply * world DB :=
  handler
    (job ← await (Job_get db_query id);
     mret (Json 200 "job" (Row (Some job)))).

(** [router.patch("/:id", ensureLoggedIn, ...)]: the function. *)
Definition patch_job (id : jsval) (body : object)
  : world DB -> reply * world DB :=
  handler
    (validator ← unbound "jsonschema";
     if negb (valid validator) then
       throwH (BadRequestError (join "," (errors validator)))
     else
       job ← await (Job.update db_query id body);
       mret (Json 200 "job" (Row (Some job)))).

(** [router.delete("/:id", ensureLoggedIn, ...)]: the function. *)
Definition delete_job (id : jsval) : world DB -> reply * world DB :=
  handler
    (_ ← await (Job_remove db_query id);
     mret (Json 200 "deleted" (Value id))).

End JobRoutes.

(* ===================================================================== *)
(** * Properties of helpers/sql.js *)
(* ===================================================================== *)

Section PartialUpdate.







(** No inherited member prints a dollar sign. *)
Lemma Object_prototype_no_dollar (key text : string) :
  Object_prototype_member key = Some text -> mentions "$"%char text = false.
Proof.
  unfold Object_prototype_member, Object_prototype. cbn [List.find fst].
  repeat match goal with
         | |- context [String.eqb ?a key] => destruct (String.eqb a key)
         end;
    cbn; intros [= <-]; reflexivity.
Qed.

(** The example of the documentation of [sqlForPartialUpdate]. *)
Example sqlForPartialUpdate_doc :
  sqlForPartialUpdate sample_payload sample_table
  = inr {| setCols := q "first_name" +:+ "=$1, " +:+ q "age" +:+ "=$2";
           values := [JStr "Aliya"; JNum 32] |}.
Proof. vm_compute. reflexivity. Qed.

(** The same payload without a table, as in sql.test.js. *)
Example sqlForPartialUpdate_default_names :
  sqlForPartialUpdate sample_payload ∅
  = inr {| setCols := q "firstName" +:+ "=$1, " +:+ q "age" +:+ "=$2";
           values := [JStr "Aliya"; JNum 32] |}.
Proof. vm_compute. reflexivity. Qed.

(** What a non-empty payload gives: one assignment per entry, in order. *)
Lemma sqlForPartialUpdate_nonempty (data : object)
    (jsToSql : gmap string string) :
  data <> [] ->
  sqlForPartialUpdate data jsToSql
  = inr {| setCols :=
             join ", "
               (Array_map
                  (fun colName idx =>
                     dq +:+ columnName jsToSql colName +:+ dq +:+ "=$"
                        +:+ nat_to_string (idx + 1))
                  (Object_keys data));
           values := Object_values data |}.
Proof.
  intros Hne. unfold sqlForPartialUpdate.
  destruct data as [|e rest]; [contradiction|reflexivity].
Qed.

Lemma sqlForPartialUpdate_empty (jsToSql : gmap string string) :
  sqlForPartialUpdate [] jsToSql = inl (BadRequestError "No data").
Proof. reflexivity. Qed.

End PartialUpdate.

(* ===================================================================== *)
(** * Reading back a printed placeholder *)
(* ===================================================================== *)

Section Placeholders.

Lemma append_cons (c : ascii) (s rest : string) :
  String c s +:+ rest = String c (s +:+ rest).
Proof. reflexivity. Qed.

Lemma append_empty (s : string) : s +:+ EmptyString = s.
Proof.
  induction s as [|c s IH]; [reflexivity|].
  now rewrite append_cons, IH.
Qed.

(** One step of the scanner on a digit, inside a placeholder. *)
Lemma scan_digit (c : ascii) (d : nat) (rest : string) (acc : option nat) :
  digit_of c = Some d ->
  scan (String c rest) (Some acc)
  = scan rest (Some (Some (10 * default 0%nat acc + d)%nat)).
Proof.
  intros Hc. cbn [scan].
  destruct (Ascii.eqb_spec c "$"%char) as [->|_]; [discriminate Hc|].
  now rewrite Hc.
Qed.

Lemma scan_digits (d : uint) :
  forall (acc : nat) (rest : string),
    scan (NilEmpty.string_of_uint d +:+ rest) (Some (Some acc))
    = scan rest (Some (Some (Nat.of_uint_acc d acc))).
Proof.
  induction d; intros acc rest;
    [reflexivity
    | cbn [NilEmpty.string_of_uint]; rewrite append_cons;
      erewrite scan_digit by reflexivity;
      rewrite IHd; cbn [Nat.of_uint_acc default id];
      rewrite Nat.tail_mul_spec;
      match goal with
      | |- context [(nat_of_ascii ?c - 48)%nat] =>
          let v := eval vm_compute in (nat_of_ascii c - 48)%nat in
          change (nat_of_ascii c - 48)%nat with v
      end;
      match goal with
      | |- scan _ (Some (Some (Nat.of_uint_acc _ ?a)))
           = scan _ (Some (Some (Nat.of_uint_acc _ ?b))) =>
          replace a with b by lia
      end; reflexivity ..].
Qed.

Lemma scan_first_digit (d : uint) (rest : string) :
  d <> Nil ->
  scan (NilEmpty.string_of_uint d +:+ rest) (Some None)
  = scan (NilEmpty.string_of_uint d +:+ rest) (Some (Some 0%nat)).
Proof.
  intros Hd.
  destruct d; [contradiction | reflexivity ..].
Qed.

Lemma nat_to_string_digits (n : nat) :
  nat_to_string n = NilEmpty.string_of_uint (Nat.to_uint n)
  /\ Nat.to_uint n <> Nil.
Proof.
  assert (Hn : Nat.to_uint n <> Nil).
  { pose proof (DecimalNat.Unsigned.to_of (Nat.to_uint n)) as Hto.
    rewrite DecimalNat.Unsigned.of_to in Hto.
    rewrite Hto. apply DecimalFacts.unorm_nonnil. }
  split; [|exact Hn].
  unfold nat_to_string, NilZero.string_of_uint.
  destruct (Nat.to_uint n); [contradiction | reflexivity ..].
Qed.

(** After a dollar sign, the scanner reads a printed index back. *)
Lemma scan_nat_to_string (n : nat) (rest : string) :
  scan (nat_to_string n +:+ rest) (Some None)
  = scan rest (Some (Some n)).
Proof.
  destruct (nat_to_string_digits n) as [-> Hd].
  rewrite scan_first_digit by exact Hd.
  rewrite scan_digits.
  change (Nat.of_uint_acc (Nat.to_uint n) 0) with (Nat.of_uint (Nat.to_uint n)).
  now rewrite DecimalNat.Unsigned.of_to.
Qed.


End Placeholders.

(* ===================================================================== *)
(** * Properties of the update operations *)
(* ===================================================================== *)

Section Update.
Context {DB : Type} (db_query : executor DB).


(** Running one round-trip: the result is the executor's, and the text and
    the bind values are added to the round-trips issued. *)
Lemma query_run (text : string) (vals : list jsval) (w : world DB) :
  query db_query text vals w
  = (fst (db_query text vals (store w)),
     {| store := snd (db_query text vals (store w));
        issued := issued w ++ [(text, vals)] |}).
Proof. unfold query. now destruct (db_query text vals (store w)). Qed.

(** [Company.update] on a non-empty payload issues one statement: the
    assignments of [sqlForPartialUpdate], the key placeholder numbered one
    past the payload, and the key bound last. *)
Lemma Company_update_issued (handle : jsval) (data : object) (w : world DB) :
  data <> [] ->
  exists clause,
    sqlForPartialUpdate data Company.jsToSql = inr clause
    /\ issued (snd (Company.update db_query handle data w))
       = issued w
         ++ [(Company.update_sql (setCols clause)
                ("$" +:+ nat_to_string (length data + 1)),
              values clause ++ [handle])].
Proof.
  intros Hne. eexists. split; [apply sqlForPartialUpdate_nonempty, Hne|].
  unfold Company.update, mbind, M_bind, lift.
  rewrite (sqlForPartialUpdate_nonempty _ _ Hne). cbn [values setCols].
  rewrite query_run. unfold Object_values. rewrite List.length_map.
  destruct (fst (db_query _ _ _)) as [e|[|row rows]]; reflexivity.
Qed.

Lemma Job_update_issued (id : jsval) (data : object) (w : world DB) :
  data <> [] ->
  exists clause,
    sqlForPartialUpdate data ∅ = inr clause
    /\ issued (snd (Job.update db_query id data w))
       = issued w
         ++ [(Job.update_sql (setCols clause)
                ("$" +:+ nat_to_string (length data + 1)),
              values clause ++ [id])].
Proof.
  intros Hne. eexists. split; [apply sqlForPartialUpdate_nonempty, Hne|].
  unfold Job.update, mbind, M_bind, lift.
  rewrite (sqlForPartialUpdate_nonempty _ _ Hne). cbn [values setCols].
  rewrite query_run. unfold Object_values. rewrite List.length_map.
  destruct (fst (db_query _ _ _)) as [e|[|row rows]]; reflexivity.
Qed.

(** C7: on an empty payload the builder throws [BadRequestError] with the
    message "No data", and so do [Company.update] and [Job.update], with the
    world as it was: no statement issued, the store untouched. *)
Theorem update_empty_payload (jsToSql : gmap string string) (key : jsval)
    (w : world DB) :
  sqlForPartialUpdate [] jsToSql = inl (BadRequestError "No data")
  /\ Company.update db_query key [] w = (inl (BadRequestError "No data"), w)
  /\ Job.update db_query key [] w = (inl (BadRequestError "No data"), w).
Proof. repeat split. Qed.

End Update.

(* ===================================================================== *)
(** * Properties of the filter builders *)
(* ===================================================================== *)

Section FindAll.
Context {DB : Type} (db_query : executor DB).

(** Case analysis on which criteria a builder sees, then evaluation: the
    query text depends on nothing else. *)
Ltac by_criteria build :=
  intros; unfold build;
  repeat match goal with
         | H : truthy ?v = _ |- _ => rewrite H; clear H
         | H : defined ?v = _ |- _ => rewrite H; clear H
         end;
  repeat match goal with
         | |- context [prop ?f ?k] => generalize (prop f k); intro
         end;
  repeat match goal with
         | |- context [truthy ?v] => destruct (truthy v)
         | |- context [defined ?v] => destruct (defined v)
         end;
  vm_compute; try reflexivity.

(** [findAll] hands the text and the bind values it built to the executor
    and returns the rows the executor answers. *)
Lemma Company_findAll_run (filters : gmap string jsval) (w : world DB) :
  fst (Company.findAll db_query filters w)
  = fst (db_query (fst (Company.findAll_build filters))
           (snd (Company.findAll_build filters)) (store w)).
Proof.
  unfold Company.findAll.
  destruct (Company.findAll_build filters) as [text vals].
  unfold mbind, M_bind. rewrite query_run.
  cbn [fst snd]. now destruct (fst (db_query text vals (store w))).
Qed.

(** In [Job.findAll] the placeholders written are 1, 2, ... in order. *)
Lemma Job_findAll_placeholders_sequential (filters : gmap string jsval) :
  placeholders (fst (Job.findAll_build filters))
  = seq 1 (length (placeholders (fst (Job.findAll_build filters)))).
Proof. by_criteria @Job.findAll_build. Qed.

(** In [Company.findAll], when the name criterion is present, the
    placeholders written are 1..n for the n bind values. *)
Lemma Company_findAll_placeholders_with_name (filters : gmap string jsval) :
  truthy (prop filters "name") = true ->
  placeholders (fst (Company.findAll_build filters))
  = seq 1 (length (snd (Company.findAll_build filters))).
Proof. by_criteria @Company.findAll_build. Qed.

(** Without the name criterion, the first employee-count criterion is
    written with the index 2, whatever the bind list holds. *)
Lemma Company_findAll_placeholders_without_name
    (filters : gmap string jsval) :
  truthy (prop filters "name") = false ->
  truthy (prop filters "minEmployees") || truthy (prop filters "maxEmployees")
  = true ->
  head (placeholders (fst (Company.findAll_build filters))) = Some 2%nat.
Proof.
  unfold Company.findAll_build.
  generalize (prop filters "name") (prop filters "minEmployees")
             (prop filters "maxEmployees").
  intros n mn mx Hn. rewrite Hn.
  destruct (truthy mn), (truthy mx); intros Hp;
    try discriminate Hp; vm_compute; reflexivity.
Qed.

(** In [Job.findAll], a present [hasEquity] adds a bind value and no
    placeholder: the bind list is one longer than the placeholders. *)
Lemma Job_findAll_hasEquity_surplus (filters : gmap string jsval) :
  defined (prop filters "hasEquity") = true ->
  length (snd (Job.findAll_build filters))
  = S (length (placeholders (fst (Job.findAll_build filters)))).
Proof. by_criteria @Job.findAll_build. Qed.

Lemma Job_findAll_without_hasEquity (filters : gmap string jsval) :
  defined (prop filters "hasEquity") = false ->
  length (snd (Job.findAll_build filters))
  = length (placeholders (fst (Job.findAll_build filters))).
Proof. by_criteria @Job.findAll_build. Qed.

(** C1: [Company.findAll] with [minEmployees] alone.  The bind list is
    empty when the criterion is appended, yet the placeholder written is
    [$2]: the indices of the text are [2], not [1], and no bind value stands
    at index 2. *)
Theorem Company_findAll_minEmployees_alone :
  let filters : gmap string jsval := {[ "minEmployees" := JNum 50 ]} in
  Company.findAll_build filters
  = (Company.findAll_base +:+ " WHERE num_employees >= $2"
       +:+ " ORDER BY name",
     [JNum 50])
  /\ placeholders (fst (Company.findAll_build filters)) = [2%nat]
  /\ placeholders (fst (Company.findAll_build filters))
     <> seq 1 (length (snd (Company.findAll_build filters)))
  /\ bound (snd (Company.findAll_build filters)) 2 = None.
Proof. vm_compute. repeat split; discriminate. Qed.

(** C2: [Job.findAll] with [hasEquity] alone.  The predicate is the literal
    comparison and the text has no placeholder, but the value of the
    criterion is pushed on the bind list all the same: one bind value for
    zero placeholders. *)
Theorem Job_findAll_hasEquity_alone :
  let filters : gmap string jsval := {[ "hasEquity" := JBool true ]} in
  Job.findAll_build filters
  = (Job.findAll_base +:+ " WHERE equity > 0" +:+ " ORDER BY title",
     [JBool true])
  /\ placeholders (fst (Job.findAll_build filters)) = []
  /\ length (snd (Job.findAll_build filters)) = 1%nat
  /\ length (placeholders (fst (Job.findAll_build filters)))
     <> length (snd (Job.findAll_build filters)).
Proof. vm_compute. repeat split; discriminate. Qed.

(** C5: [Company.findAll] with [minEmployees] 50 and [maxEmployees] 10.
    Both comparisons are written against [$2], which the bind list
    [[50; 10]] binds to 10; no placeholder refers to the 50.  What
    [findAll] returns is the executor's answer to that statement. *)
Theorem Company_findAll_inconsistent_range (w : world DB) :
  let filters : gmap string jsval :=
    {[ "minEmployees" := JNum 50; "maxEmployees" := JNum 10 ]} in
  let text :=
    Company.findAll_base +:+ " WHERE num_employees >= $2"
      +:+ " AND num_employees <= $2" +:+ " ORDER BY name" in
  Company.findAll_build filters = (text, [JNum 50; JNum 10])
  /\ placeholders text = [2%nat; 2%nat]
  /\ bound [JNum 50; JNum 10] 2 = Some (JNum 10)
  /\ fst (Company.findAll db_query filters w)
     = fst (db_query text [JNum 50; JNum 10] (store w)).
Proof.
  intros filters text.
  assert (Hb : Company.findAll_build filters = (text, [JNum 50; JNum 10]))
    by (vm_compute; reflexivity).
  split; [exact Hb|].
  split; [vm_compute; reflexivity|].
  split; [reflexivity|].
  rewrite Company_findAll_run. now rewrite Hb.
Qed.

End FindAll.

(* ===================================================================== *)
(** * Properties of the create operations *)
(* ===================================================================== *)

Section Create.
Context {DB : Type} (db_query : executor DB).

(** C8, as the code has it: when the duplicate check of [Company.create]
    or [Job.create] answers at least one row, the operation throws a
    [BadRequestError] whose message is "Duplicate company: " followed by the
    handle, respectively "Duplicate job: " followed by the title; the one
    statement issued is the duplicate check, no insertion follows, and the
    store is the one the check left. *)
Theorem duplicate_create_rejected (data : gmap string jsval) (w : world DB)
    (row : object) (rows : list object) (s : DB) :
  (db_query Company.duplicateCheck_sql [prop data "handle"] (store w)
   = (inr (row :: rows), s) ->
   Company.create db_query data w
   = (inl (BadRequestError
             ("Duplicate company: " +:+ toString (prop data "handle"))),
      {| store := s;
         issued := issued w
                   ++ [(Company.duplicateCheck_sql, [prop data "handle"])] |}))
  /\
  (db_query Job.duplicateCheck_sql
     [prop data "title"; prop data "companyHandle"] (store w)
   = (inr (row :: rows), s) ->
   Job.create db_query data w
   = (inl (BadRequestError
             ("Duplicate job: " +:+ toString (prop data "title"))),
      {| store := s;
         issued := issued w
                   ++ [(Job.duplicateCheck_sql,
                        [prop data "title"; prop data "companyHandle"])] |})).
Proof.
  split; intros Hdup.
  - unfold Company.create, mbind, M_bind. rewrite query_run, Hdup.
    reflexivity.
  - unfold Job.create, mbind, M_bind. rewrite query_run, Hdup.
    reflexivity.
Qed.

End Create.

(** On the sample store, creating the company "c1" again, or the posting
    "Dev" of "c1" again, fails and leaves the store as it was. *)
Lemma duplicate_create_rejected_witness :
  Company.create memory_db duplicate_company sample_world
  = (inl (BadRequestError "Duplicate company: c1"),
     {| store := sample_store;
        issued := [(Company.duplicateCheck_sql, [JStr "c1"])] |})
  /\ Job.create memory_db duplicate_job_c1 sample_world
     = (inl (BadRequestError "Duplicate job: Dev"),
        {| store := sample_store;
           issued := [(Job.duplicateCheck_sql, [JStr "Dev"; JStr "c1"])] |}).
Proof.
  split.
  - apply (proj1 (duplicate_create_rejected memory_db duplicate_company sample_world
                    [("handle", JStr "c1")] [] sample_store)).
    vm_compute. reflexivity.
  - apply (proj2 (duplicate_create_rejected memory_db duplicate_job_c1 sample_world
                    [("id", JNum 1)] [] sample_store)).
    vm_compute. reflexivity.
Defined.

(** C8, as stated, fails for postings: the error of a duplicate posting
    names the title alone.  "Dev" at "c1" and "Dev" at "c2" are two
    different keys, both present, and creating either again throws the same
    error; so no reading of the error gives back the duplicate key. *)
Lemma Job_duplicate_error_omits_company :
  fst (Job.create memory_db duplicate_job_c1 sample_world)
  = inl (BadRequestError "Duplicate job: Dev")
  /\ fst (Job.create memory_db duplicate_job_c2 sample_world)
     = inl (BadRequestError "Duplicate job: Dev")
  /\ prop duplicate_job_c1 "companyHandle"
     <> prop duplicate_job_c2 "companyHandle"
  /\ ~ (exists key_of : error -> jsval * jsval,
          forall (data : gmap string jsval) (e : error),
            fst (Job.create memory_db data sample_world) = inl e ->
            key_of e = (prop data "title", prop data "companyHandle")).
Proof.
  assert (H1 : fst (Job.create memory_db duplicate_job_c1 sample_world)
               = inl (BadRequestError "Duplicate job: Dev"))
    by (vm_compute; reflexivity).
  assert (H2 : fst (Job.create memory_db duplicate_job_c2 sample_world)
               = inl (BadRequestError "Duplicate job: Dev"))
    by (vm_compute; reflexivity).
  split; [exact H1|]. split; [exact H2|].
  split; [vm_compute; discriminate|].
  intros [key_of Hkey].
  pose proof (Hkey _ _ H1) as K1. pose proof (Hkey _ _ H2) as K2.
  rewrite K1 in K2. vm_compute in K2. discriminate K2.
Qed.

(* ===================================================================== *)
(** * Properties of middleware/auth.js *)
(* ===================================================================== *)

Section Auth.

(** Every call of the continuation [ensureAuthenticatedAsSelf] makes. *)
Lemma ensureAuthenticatedAsSelf_signals (req : request) (res : locals) :
  signals (ensureAuthenticatedAsSelf req res)
  = match locals_user res with
    | None => [NextErr unauthorized]
    | Some u =>
        match params req with
        | None => [NextErr TypeError]
        | Some ps =>
            if bool_decide (ps !! "username" = Some (username u))
            then [Next] else [NextErr forbidden_self]
        end
    end.
Proof.
  unfold ensureAuthenticatedAsSelf, signals.
  destruct (locals_user res) as [u|]; [|reflexivity].
  destruct (params req) as [ps|]; [|reflexivity].
  cbn. repeat case_bool_decide; try reflexivity; congruence.
Qed.

(** Every call of the continuation [ensureLoggedIn] makes. *)
Lemma ensureLoggedIn_signals (req : request) (res : locals) :
  signals (ensureLoggedIn req res)
  = match locals_user res with
    | None => [NextErr unauthorized]
    | Some u =>
        match isAdminActionRoute req with
        | inl e => [NextErr e]
        | inr true =>
            if isAdmin u then [Next] else [NextErr forbidden_admin]
        | inr false => signals (ensureAuthenticatedAsSelf req res) ++ [Next]
        end
    end.
Proof.
  unfold ensureLoggedIn, signals at 1.
  destruct (locals_user res) as [u|] eqn:Hu; [|reflexivity].
  destruct (isAdminActionRoute req) as [e|[|]]; [reflexivity| |].
  - destruct (isAdmin u); reflexivity.
  - cbn. unfold signals.
    destruct (ensureAuthenticatedAsSelf req res) as [tr [e|[]]] eqn:Hs.
    + exfalso. unfold ensureAuthenticatedAsSelf in Hs. rewrite Hu in Hs.
      destruct (params req); cbn in Hs;
        repeat case_bool_decide; discriminate Hs.
    + reflexivity.
Qed.

(** The three cases of auth.test.js for [ensureAuthenticatedAsSelf]. *)
Example ensureAuthenticatedAsSelf_tests :
  let self := {| method := None; originalUrl := None;
                 params := Some {[ "username" := "test" ]} |} in
  let other := {| method := None; originalUrl := None;
                  params := Some {[ "username" := "otherUser" ]} |} in
  let test_user :=
    {| locals_user := Some {| username := "test"; isAdmin := false |} |} in
  signals (ensureAuthenticatedAsSelf self test_user) = [Next]
  /\ signals (ensureAuthenticatedAsSelf other test_user)
     = [NextErr forbidden_self]
  /\ signals (ensureAuthenticatedAsSelf self anonymous)
     = [NextErr unauthorized].
Proof. vm_compute. repeat split. Qed.

(** On a bare request object ([req = {}]) no route matches, and reading
    [req.params.username] throws inside [ensureAuthenticatedAsSelf]. *)
Example ensureLoggedIn_bare_request :
  let bare := {| method := None; originalUrl := None; params := None |} in
  signals (ensureLoggedIn bare anonymous) = [NextErr unauthorized]
  /\ signals (ensureLoggedIn bare logged_in) = [NextErr TypeError; Next].
Proof. vm_compute. repeat split. Qed.

(** A POST request whose URL starts with a slash is an admin action. *)
Lemma isAdminActionRoute_POST (req : request) (url : string) :
  method req = Some "POST" ->
  originalUrl req = Some url ->
  startsWith url "/" = true ->
  isAdminActionRoute req = inr true.
Proof.
  intros Hm Hu Hs. unfold isAdminActionRoute.
  cbn [companyActionRoutes app Array_some].
  unfold routeMatches at 1. cbn [route_method route_path].
  rewrite Hm, Hu, Hs. reflexivity.
Qed.

(** C3: the decision table of [ensureLoggedIn].  Without a user the one
    call of the continuation carries [UnauthorizedError]; with a user who is
    not an admin on an admin action, the one call carries [ForbiddenError];
    on another route, a user whose name is the [username] parameter is let
    through (every call is [next()]); and a user whose name differs from it
    is answered [ForbiddenError]: that is the first call, and the decision.
    On these last two rows a second call [next()] follows the first. *)
Theorem ensureLoggedIn_decision_table (req : request) (res : locals) :
  (locals_user res = None ->
   signals (ensureLoggedIn req res) = [NextErr unauthorized]
   /\ decide_request req res = Some DENY_unauthenticated)
  /\ (forall u,
        locals_user res = Some u -> isAdmin u = false ->
        isAdminActionRoute req = inr true ->
        signals (ensureLoggedIn req res) = [NextErr forbidden_admin]
        /\ decide_request req res = Some DENY_forbidden)
  /\ (forall u ps,
        locals_user res = Some u -> isAdmin u = false ->
        isAdminActionRoute req = inr false ->
        params req = Some ps -> ps !! "username" = Some (username u) ->
        decide_request req res = Some ALLOW
        /\ signals (ensureLoggedIn req res) = [Next; Next])
  /\ (forall u ps,
        locals_user res = Some u -> isAdmin u = false ->
        isAdminActionRoute req = inr false ->
        params req = Some ps -> ps !! "username" <> Some (username u) ->
        decide_request req res = Some DENY_forbidden
        /\ signals (ensureLoggedIn req res)
           = [NextErr forbidden_self; Next]).
Proof.
  unfold decide_request.
  rewrite ensureLoggedIn_signals, ensureAuthenticatedAsSelf_signals.
  repeat split; intros.
  - now rewrite H.
  - now rewrite H.
  - now rewrite H, H1, H0.
  - now rewrite H, H1, H0.
  - rewrite H, H1, H2. now rewrite bool_decide_eq_true_2.
  - rewrite H, H1, H2. now rewrite bool_decide_eq_true_2.
  - rewrite H, H1, H2. now rewrite bool_decide_eq_false_2.
  - rewrite H, H1, H2. now rewrite bool_decide_eq_false_2.
Qed.

(** C4: a request with a user, not an admin action, and no [username]
    parameter: the comparison with [undefined] is a mismatch, the call of
    the continuation [ensureAuthenticatedAsSelf] makes carries
    [ForbiddenError], it is the first call of [ensureLoggedIn], and the
    decision is DENY(forbidden). *)
Theorem ensureLoggedIn_no_username_param (req : request) (res : locals)
    (u : user) (ps : gmap string string) :
  locals_user res = Some u ->
  isAdminActionRoute req = inr false ->
  params req = Some ps ->
  ps !! "username" = None ->
  signals (ensureAuthenticatedAsSelf req res) = [NextErr forbidden_self]
  /\ signals (ensureLoggedIn req res) = [NextErr forbidden_self; Next]
  /\ decide_request req res = Some DENY_forbidden.
Proof.
  intros Hu Hr Hp Hn. unfold decide_request.
  rewrite ensureLoggedIn_signals, ensureAuthenticatedAsSelf_signals.
  rewrite Hu, Hr, Hp, Hn.
  rewrite bool_decide_eq_false_2 by discriminate.
  repeat split.
Qed.

(** C9: every POST request whose URL starts with a slash is classified an
    admin action, by the entry POST "/" and the prefix test; so for a user
    who is not an admin the one call of the continuation carries
    [ForbiddenError], whatever the URL. *)
Theorem POST_always_admin_action (req : request) (res : locals)
    (url : string) (u : user) :
  method req = Some "POST" ->
  originalUrl req = Some url ->
  startsWith url "/" = true ->
  isAdminActionRoute req = inr true
  /\ (locals_user res = Some u -> isAdmin u = false ->
      signals (ensureLoggedIn req res) = [NextErr forbidden_admin]
      /\ decide_request req res = Some DENY_forbidden).
Proof.
  intros Hm Hu Hs.
  pose proof (isAdminActionRoute_POST req url Hm Hu Hs) as Hr.
  split; [exact Hr|]. intros Hl Ha.
  unfold decide_request. rewrite ensureLoggedIn_signals, Hl, Hr, Ha.
  repeat split.
Qed.

(** C10: with a user and a request that is not an admin action,
    [ensureLoggedIn] calls the continuation twice: once inside
    [ensureAuthenticatedAsSelf], and once more, without an error, after it.
    On a mismatch of the names the calls are [next(ForbiddenError)] then
    [next()]; on a match they are [next()] twice. *)
Theorem ensureLoggedIn_signals_twice (req : request) (res : locals)
    (u : user) :
  locals_user res = Some u ->
  isAdminActionRoute req = inr false ->
  exists s : signal,
    signals (ensureAuthenticatedAsSelf req res) = [s]
    /\ signals (ensureLoggedIn req res) = [s; Next]
    /\ (forall ps, params req = Some ps ->
          (ps !! "username" <> Some (username u) ->
           s = NextErr forbidden_self)
          /\ (ps !! "username" = Some (username u) -> s = Next)).
Proof.
  intros Hu Hr.
  rewrite ensureLoggedIn_signals, ensureAuthenticatedAsSelf_signals.
  rewrite Hu, Hr.
  destruct (params req) as [ps|].
  - case_bool_decide as Hc.
    + exists Next. do 2 (split; [reflexivity|]).
      intros ps' [= <-]. split; intros; congruence.
    + exists (NextErr forbidden_self). do 2 (split; [reflexivity|]).
      intros ps' [= <-]. split; intros; congruence.
  - exists (NextErr TypeError). do 2 (split; [reflexivity|]).
    intros ps' [=].
Qed.

(** The four rows of the table, on sample requests. *)
Lemma ensureLoggedIn_decision_table_witness :
  decide_request req_post anonymous = Some DENY_unauthenticated
  /\ decide_request req_post logged_in = Some DENY_forbidden
  /\ decide_request req_self logged_in = Some ALLOW
  /\ decide_request req_other logged_in = Some DENY_forbidden.
Proof.
  split; [|split; [|split]].
  - destruct (ensureLoggedIn_decision_table req_post anonymous)
      as (H & _).
    exact (proj2 (H eq_refl)).
  - destruct (ensureLoggedIn_decision_table req_post logged_in)
      as (_ & H & _).
    exact (proj2 (H sample_user eq_refl eq_refl eq_refl)).
  - destruct (ensureLoggedIn_decision_table req_self logged_in)
      as (_ & _ & H & _).
    refine (proj1 (H sample_user {[ "username" := "u1" ]}
                     eq_refl eq_refl eq_refl eq_refl _)).
    vm_compute. reflexivity.
  - destruct (ensureLoggedIn_decision_table req_other logged_in)
      as (_ & _ & _ & H).
    refine (proj1 (H sample_user {[ "username" := "u2" ]}
                     eq_refl eq_refl eq_refl eq_refl _)).
    vm_compute. discriminate.
Defined.

(** A PATCH of a posting by a user who is not an admin. *)
Lemma ensureLoggedIn_no_username_param_witness :
  signals (ensureAuthenticatedAsSelf req_no_param logged_in)
  = [NextErr forbidden_self]
  /\ signals (ensureLoggedIn req_no_param logged_in)
     = [NextErr forbidden_self; Next]
  /\ decide_request req_no_param logged_in = Some DENY_forbidden.
Proof.
  apply (ensureLoggedIn_no_username_param req_no_param logged_in
           sample_user {[ "id" := "7" ]}).
  - reflexivity.
  - vm_compute. reflexivity.
  - reflexivity.
  - vm_compute. reflexivity.
Defined.

(** A POST of a posting by a user who is not an admin. *)
Lemma POST_always_admin_action_witness :
  isAdminActionRoute req_post = inr true
  /\ signals (ensureLoggedIn req_post logged_in) = [NextErr forbidden_admin]
  /\ decide_request req_post logged_in = Some DENY_forbidden.
Proof.
  destruct (POST_always_admin_action req_post logged_in "/jobs" sample_user)
    as (Hr & Hs); [reflexivity | reflexivity | vm_compute; reflexivity |].
  split; [exact Hr|]. exact (Hs eq_refl eq_refl).
Defined.

(** A PATCH of another user's account: refused, then let through. *)
Lemma ensureLoggedIn_signals_twice_witness :
  signals (ensureLoggedIn req_other logged_in)
  = [NextErr forbidden_self; Next].
Proof.
  destruct (ensureLoggedIn_signals_twice req_other logged_in sample_user)
    as (s & _ & Hs & Hc); [reflexivity | vm_compute; reflexivity |].
  destruct (Hc {[ "username" := "u2" ]} eq_refl) as (Hd & _).
  rewrite Hs. rewrite Hd; [reflexivity|].
  vm_compute. discriminate.
Defined.

End Auth.

(* ===================================================================== *)
(** * Further properties of the repositories *)
(* ===================================================================== *)

Section Repositories.
Context {DB : Type} (db_query : executor DB).

(** Unfolds a repository operation down to the answers of the executor. *)
Ltac run_op op :=
  unfold op, mbind, M_bind, mret, M_ret, throw, lift;
  rewrite ?query_run; cbn [fst snd store issued].

(** What [Job.get] does, by the answer of the executor. *)
Lemma Job_get_run (id : jsval) (w : world DB) :
  Job_get db_query id w
  = (match fst (db_query Job_get_sql [id] (store w)) with
     | inl e => inl e
     | inr [] => inl (NotFoundError ("No job with ID: " +:+ toString id))
     | inr (job :: _) => inr job
     end,
     after db_query w Job_get_sql [id]).
Proof.
  run_op @Job_get.
  destruct (fst (db_query _ _ _)) as [e|[|row rows]]; reflexivity.
Qed.

Lemma Job_remove_run (id : jsval) (w : world DB) :
  Job_remove db_query id w
  = (match fst (db_query Job_remove_sql [id] (store w)) with
     | inl e => inl e
     | inr [] => inl (NotFoundError ("No job with ID: " +:+ toString id))
     | inr (_ :: _) => inr tt
     end,
     after db_query w Job_remove_sql [id]).
Proof.
  run_op @Job_remove.
  destruct (fst (db_query _ _ _)) as [e|[|row rows]]; reflexivity.
Qed.

Lemma Company_remove_run (handle : jsval) (w : world DB) :
  Company_remove db_query handle w
  = (match fst (db_query Company_remove_sql [handle] (store w)) with
     | inl e => inl e
     | inr [] => inl (NotFoundError ("No company: " +:+ toString handle))
     | inr (_ :: _) => inr tt
     end,
     after db_query w Company_remove_sql [handle]).
Proof.
  run_op @Company_remove.
  destruct (fst (db_query _ _ _)) as [e|[|row rows]]; reflexivity.
Qed.

Lemma Company_get_run (handle : jsval) (w : world DB) :
  Company_get db_query handle w
  = match fst (db_query Company_get_sql [handle] (store w)) with
    | inl e => (inl e, after db_query w Company_get_sql [handle])
    | inr [] =>
        (inl (NotFoundError ("No company: " +:+ toString handle)),
         after db_query w Company_get_sql [handle])
    | inr (company :: _) =>
        let w1 := after db_query w Company_get_sql [handle] in
        (match fst (db_query Company_get_jobs_sql [handle] (store w1)) with
         | inl e => inl e
         | inr jobs => inr (company, jobs)
         end,
         after db_query w1 Company_get_jobs_sql [handle])
    end.
Proof.
  run_op @Company_get.
  destruct (fst (db_query Company_get_sql _ _)) as [e|[|row rows]];
    try reflexivity.
  cbn [lookup list_lookup]. rewrite query_run. cbn [fst snd store issued].
  unfold after. cbn [store].
  destruct (fst (db_query Company_get_jobs_sql _ _)); reflexivity.
Qed.

Lemma Company_create_run (data : gmap string jsval) (w : world DB) :
  let handle := prop data "handle" in
  let binds := [handle; prop data "name"; prop data "description";
                prop data "numEmployees"; prop data "logoUrl"] in
  let w1 := after db_query w Company.duplicateCheck_sql [handle] in
  Company.create db_query data w
  = match fst (db_query Company.duplicateCheck_sql [handle] (store w)) with
    | inl e => (inl e, w1)
    | inr (_ :: _) =>
        (inl (BadRequestError ("Duplicate company: " +:+ toString handle)),
         w1)
    | inr [] =>
        (match fst (db_query Company.insert_sql binds (store w1)) with
         | inl e => inl e
         | inr rows => inr (rows !! 0%nat)
         end,
         after db_query w1 Company.insert_sql binds)
    end.
Proof.
  intros handle binds w1. subst handle binds w1.
  run_op @Company.create. unfold after.
  destruct (fst (db_query _ [prop data "handle"] (store w)))
    as [e|[|row rows]]; try reflexivity.
  cbn [lookup list_lookup]. rewrite query_run. cbn [fst snd store issued].
  destruct (fst (db_query Company.insert_sql _ _)); reflexivity.
Qed.

Lemma Job_create_run (data : gmap string jsval) (w : world DB) :
  let title := prop data "title" in
  let key := [title; prop data "companyHandle"] in
  let binds := [title; prop data "salary"; prop data "equity";
                prop data "companyHandle"] in
  let w1 := after db_query w Job.duplicateCheck_sql key in
  Job.create db_query data w
  = match fst (db_query Job.duplicateCheck_sql key (store w)) with
    | inl e => (inl e, w1)
    | inr (_ :: _) =>
        (inl (BadRequestError ("Duplicate job: " +:+ toString title)), w1)
    | inr [] =>
        (match fst (db_query Job.insert_sql binds (store w1)) with
         | inl e => inl e
         | inr rows => inr (rows !! 0%nat)
         end,
         after db_query w1 Job.insert_sql binds)
    end.
Proof.
  intros title key binds w1. subst title key binds w1.
  run_op @Job.create. unfold after.
  destruct (fst (db_query Job.duplicateCheck_sql _ (store w)))
    as [e|[|row rows]]; try reflexivity.
  cbn [lookup list_lookup]. rewrite query_run. cbn [fst snd store issued].
  destruct (fst (db_query Job.insert_sql _ _)); reflexivity.
Qed.

Lemma Company_update_run (handle : jsval) (data : object) (w : world DB) :
  data <> [] ->
  let binds := Object_values data ++ [handle] in
  Company.update db_query handle data w
  = (match fst (db_query (Company_update_text data) binds (store w)) with
     | inl e => inl e
     | inr [] => inl (NotFoundError ("No company: " +:+ toString handle))
     | inr (company :: _) => inr company
     end,
     after db_query w (Company_update_text data) binds).
Proof.
  intros Hne binds. run_op @Company.update.
  rewrite (sqlForPartialUpdate_nonempty _ _ Hne). cbn [values setCols].
  rewrite query_run. cbn [fst snd store issued].
  unfold Company_update_text, after, binds, Object_values.
  rewrite !List.length_map.
  destruct (fst (db_query _ _ _)) as [e|[|row rows]]; reflexivity.
Qed.

Lemma Job_update_run (id : jsval) (data : object) (w : world DB) :
  data <> [] ->
  let binds := Object_values data ++ [id] in
  Job.update db_query id data w
  = (match fst (db_query (Job_update_text data) binds (store w)) with
     | inl e => inl e
     | inr [] => inl (NotFoundError ("No job with ID: " +:+ toString id))
     | inr (job :: _) => inr job
     end,
     after db_query w (Job_update_text data) binds).
Proof.
  intros Hne binds. run_op @Job.update.
  rewrite (sqlForPartialUpdate_nonempty _ _ Hne). cbn [values setCols].
  rewrite query_run. cbn [fst snd store issued].
  unfold Job_update_text, after, binds, Object_values.
  rewrite !List.length_map.
  destruct (fst (db_query _ _ _)) as [e|[|row rows]]; reflexivity.
Qed.

Lemma Job_findAll_run (filters : gmap string jsval) (w : world DB) :
  Job.findAll db_query filters w
  = (fst (db_query (fst (Job.findAll_build filters))
            (snd (Job.findAll_build filters)) (store w)),
     after db_query w (fst (Job.findAll_build filters))
       (snd (Job.findAll_build filters))).
Proof.
  unfold Job.findAll.
  destruct (Job.findAll_build filters) as [text vals].
  run_op @id. now destruct (fst (db_query text vals (store w))).
Qed.

Lemma Company_findAll_run_world (filters : gmap string jsval)
    (w : world DB) :
  Company.findAll db_query filters w
  = (fst (db_query (fst (Company.findAll_build filters))
            (snd (Company.findAll_build filters)) (store w)),
     after db_query w (fst (Company.findAll_build filters))
       (snd (Company.findAll_build filters))).
Proof.
  unfold Company.findAll.
  destruct (Company.findAll_build filters) as [text vals].
  run_op @id. now destruct (fst (db_query text vals (store w))).
Qed.

End Repositories.

Section RepositoryOutcomes.
Context {DB : Type} (db_query : executor DB).

(** get, update and remove on a key the executor finds no row for: each
    throws [NotFoundError] naming the key, after that one round-trip; for
    [Company.get] the statement that fetches the jobs is not issued. *)
Theorem missing_key_not_found (key : jsval) (data : object) (w : world DB) :
  (fst (db_query Company_get_sql [key] (store w)) = inr [] ->
   Company_get db_query key w
   = (inl (NotFoundError ("No company: " +:+ toString key)),
      after db_query w Company_get_sql [key]))
  /\ (fst (db_query Job_get_sql [key] (store w)) = inr [] ->
      Job_get db_query key w
      = (inl (NotFoundError ("No job with ID: " +:+ toString key)),
         after db_query w Job_get_sql [key]))
  /\ (fst (db_query Company_remove_sql [key] (store w)) = inr [] ->
      Company_remove db_query key w
      = (inl (NotFoundError ("No company: " +:+ toString key)),
         after db_query w Company_remove_sql [key]))
  /\ (fst (db_query Job_remove_sql [key] (store w)) = inr [] ->
      Job_remove db_query key w
      = (inl (NotFoundError ("No job with ID: " +:+ toString key)),
         after db_query w Job_remove_sql [key]))
  /\ (data <> [] ->
      fst (db_query (Company_update_text data)
             (Object_values data ++ [key]) (store w)) = inr [] ->
      Company.update db_query key data w
      = (inl (NotFoundError ("No company: " +:+ toString key)),
         after db_query w (Company_update_text data)
           (Object_values data ++ [key])))
  /\ (data <> [] ->
      fst (db_query (Job_update_text data)
             (Object_values data ++ [key]) (store w)) = inr [] ->
      Job.update db_query key data w
      = (inl (NotFoundError ("No job with ID: " +:+ toString key)),
         after db_query w (Job_update_text data)
           (Object_values data ++ [key]))).
Proof.
  repeat split.
  - intros Hq. now rewrite Company_get_run, Hq.
  - intros Hq. now rewrite Job_get_run, Hq.
  - intros Hq. now rewrite Company_remove_run, Hq.
  - intros Hq. now rewrite Job_remove_run, Hq.
  - intros Hne Hq. rewrite Company_update_run by exact Hne.
    cbv zeta. now rewrite Hq.
  - intros Hne Hq. rewrite Job_update_run by exact Hne.
    cbv zeta. now rewrite Hq.
Qed.

(** [Company.get] on a handle the executor finds: a second statement
    fetches the jobs, bound to the same handle, and the value returned is
    the first row found with those jobs attached. *)
Theorem Company_get_attaches_jobs (handle : jsval) (w : world DB)
    (company : object) (others jobs : list object) :
  fst (db_query Company_get_sql [handle] (store w))
  = inr (company :: others) ->
  fst (db_query Company_get_jobs_sql [handle]
         (snd (db_query Company_get_sql [handle] (store w))))
  = inr jobs ->
  fst (Company_get db_query handle w) = inr (company, jobs)
  /\ issued (snd (Company_get db_query handle w))
     = issued w ++ [(Company_get_sql, [handle]);
                    (Company_get_jobs_sql, [handle])].
Proof.
  intros H1 H2. rewrite Company_get_run, H1. cbv zeta.
  unfold after at 1 3. cbn [store fst snd]. rewrite H2.
  split; [reflexivity|]. cbn [after issued snd].
  now rewrite <- app_assoc.
Qed.

(** When the executor fails, every operation fails with the executor's
    error after a single round-trip: nothing is retried, and no second
    statement follows a failed first one. *)
Theorem executor_failure_propagates (e : error) (key : jsval)
    (fields filters : gmap string jsval) (data : object) (w : world DB) :
  (forall text vals s, fst (db_query text vals s) = inl e) ->
  data <> [] ->
  fails_after_one e w (Company.create db_query fields w)
  /\ fails_after_one e w (Job.create db_query fields w)
  /\ fails_after_one e w (Company.findAll db_query filters w)
  /\ fails_after_one e w (Job.findAll db_query filters w)
  /\ fails_after_one e w (Company_get db_query key w)
  /\ fails_after_one e w (Job_get db_query key w)
  /\ fails_after_one e w (Company.update db_query key data w)
  /\ fails_after_one e w (Job.update db_query key data w)
  /\ fails_after_one e w (Company_remove db_query key w)
  /\ fails_after_one e w (Job_remove db_query key w).
Proof.
  intros Hfail Hne.
  assert (Hone : forall text vals,
             issues_between 1 1 w (after db_query w text vals)).
  { intros text vals. exists [(text, vals)]. cbn. split; [reflexivity|lia]. }
  pose proof (Company_create_run db_query fields w) as Hcc.
  pose proof (Job_create_run db_query fields w) as Hjc.
  cbv zeta in Hcc, Hjc. rewrite Hfail in Hcc, Hjc.
  unfold fails_after_one.
  rewrite Hcc, Hjc, Company_findAll_run_world, Job_findAll_run,
    Company_get_run, Job_get_run, Company_remove_run, Job_remove_run,
    (Company_update_run db_query key data w Hne),
    (Job_update_run db_query key data w Hne).
  cbv zeta. cbn [fst snd]. rewrite !Hfail.
  repeat split; apply Hone.
Qed.

(** get, update and remove on a key the executor finds rows for: the value
    returned is the first row ([undefined] for remove), whatever else the
    executor answers, after that one round-trip. *)
Theorem found_key_returns_first_row (key : jsval) (data : object)
    (w : world DB) (row : object) (others : list object) :
  (fst (db_query Job_get_sql [key] (store w)) = inr (row :: others) ->
   Job_get db_query key w = (inr row, after db_query w Job_get_sql [key]))
  /\ (fst (db_query Company_remove_sql [key] (store w))
      = inr (row :: others) ->
      Company_remove db_query key w
      = (inr tt, after db_query w Company_remove_sql [key]))
  /\ (fst (db_query Job_remove_sql [key] (store w)) = inr (row :: others) ->
      Job_remove db_query key w
      = (inr tt, after db_query w Job_remove_sql [key]))
  /\ (data <> [] ->
      fst (db_query (Company_update_text data)
             (Object_values data ++ [key]) (store w))
      = inr (row :: others) ->
      Company.update db_query key data w
      = (inr row,
         after db_query w (Company_update_text data)
           (Object_values data ++ [key])))
  /\ (data <> [] ->
      fst (db_query (Job_update_text data)
             (Object_values data ++ [key]) (store w))
      = inr (row :: others) ->
      Job.update db_query key data w
      = (inr row,
         after db_query w (Job_update_text data)
           (Object_values data ++ [key]))).
Proof.
  repeat split.
  - intros Hq. now rewrite Job_get_run, Hq.
  - intros Hq. now rewrite Company_remove_run, Hq.
  - intros Hq. now rewrite Job_remove_run, Hq.
  - intros Hne Hq. rewrite Company_update_run by exact Hne.
    cbv zeta. now rewrite Hq.
  - intros Hne Hq. rewrite Job_update_run by exact Hne.
    cbv zeta. now rewrite Hq.
Qed.

(** [create] when the duplicate check finds no row: the insertion is the
    second and last statement, bound to the fields in the order of its
    columns, and the value returned is the first row the insertion answers
    ([undefined] when it answers none). *)
Theorem create_inserts_when_no_duplicate (fields : gmap string jsval)
    (w : world DB) :
  (fst (db_query Company.duplicateCheck_sql [prop fields "handle"] (store w))
   = inr [] ->
   let binds := [prop fields "handle"; prop fields "name";
                 prop fields "description"; prop fields "numEmployees";
                 prop fields "logoUrl"] in
   let w1 := after db_query w Company.duplicateCheck_sql
               [prop fields "handle"] in
   fst (Company.create db_query fields w)
   = match fst (db_query Company.insert_sql binds (store w1)) with
     | inl e => inl e
     | inr rows => inr (rows !! 0%nat)
     end
   /\ issued (snd (Company.create db_query fields w))
      = issued w ++ [(Company.duplicateCheck_sql, [prop fields "handle"]);
                     (Company.insert_sql, binds)])
  /\
  (fst (db_query Job.duplicateCheck_sql
          [prop fields "title"; prop fields "companyHandle"] (store w))
   = inr [] ->
   let binds := [prop fields "title"; prop fields "salary";
                 prop fields "equity"; prop fields "companyHandle"] in
   let w1 := after db_query w Job.duplicateCheck_sql
               [prop fields "title"; prop fields "companyHandle"] in
   fst (Job.create db_query fields w)
   = match fst (db_query Job.insert_sql binds (store w1)) with
     | inl e => inl e
     | inr rows => inr (rows !! 0%nat)
     end
   /\ issued (snd (Job.create db_query fields w))
      = issued w ++ [(Job.duplicateCheck_sql,
                      [prop fields "title"; prop fields "companyHandle"]);
                     (Job.insert_sql, binds)]).
Proof.
  split; intros Hq binds w1.
  - pose proof (Company_create_run db_query fields w) as Hr.
    cbv zeta in Hr. rewrite Hr, Hq. cbn [fst snd after issued].
    split; [reflexivity|]. now rewrite <- app_assoc.
  - pose proof (Job_create_run db_query fields w) as Hr.
    cbv zeta in Hr. rewrite Hr, Hq. cbn [fst snd after issued].
    split; [reflexivity|]. now rewrite <- app_assoc.
Qed.

(** Every operation keeps the round-trips issued before it and adds one or
    two: two at most for [create] and [Company.get], one for the others,
    none for an update that is refused for its empty payload. *)
Theorem round_trips_bounded (key : jsval)
    (fields filters : gmap string jsval) (data : object) (w : world DB) :
  issues_between 1 2 w (snd (Company.create db_query fields w))
  /\ issues_between 1 2 w (snd (Job.create db_query fields w))
  /\ issues_between 1 1 w (snd (Company.findAll db_query filters w))
  /\ issues_between 1 1 w (snd (Job.findAll db_query filters w))
  /\ issues_between 1 2 w (snd (Company_get db_query key w))
  /\ issues_between 1 1 w (snd (Job_get db_query key w))
  /\ issues_between 0 1 w (snd (Company.update db_query key data w))
  /\ issues_between 0 1 w (snd (Job.update db_query key data w))
  /\ issues_between 1 1 w (snd (Company_remove db_query key w))
  /\ issues_between 1 1 w (snd (Job_remove db_query key w)).
Proof.
  assert (Hone : forall lo hi text vals, (lo <= 1 <= hi)%nat ->
             issues_between lo hi w (after db_query w text vals)).
  { intros lo hi text vals Hb. exists [(text, vals)]. now cbn. }
  assert (Htwo : forall t1 v1 t2 v2,
             issues_between 1 2 w
               (after db_query (after db_query w t1 v1) t2 v2)).
  { intros. exists [(t1, v1); (t2, v2)]. cbn.
    rewrite <- app_assoc. split; [reflexivity|lia]. }
  pose proof (Company_create_run db_query fields w) as Hcc.
  pose proof (Job_create_run db_query fields w) as Hjc.
  cbv zeta in Hcc, Hjc.
  rewrite Hcc, Hjc, Company_findAll_run_world, Job_findAll_run,
    Company_get_run, Job_get_run, Company_remove_run, Job_remove_run.
  cbv zeta. cbn [snd].
  repeat split; try (apply Hone; lia).
  - destruct (fst (db_query Company.duplicateCheck_sql _ _))
      as [e|[|r rs]]; cbn [snd]; [apply Hone; lia | apply Htwo
                                  | apply Hone; lia].
  - destruct (fst (db_query Job.duplicateCheck_sql _ _))
      as [e|[|r rs]]; cbn [snd]; [apply Hone; lia | apply Htwo
                                  | apply Hone; lia].
  - destruct (fst (db_query Company_get_sql _ _))
      as [e|[|r rs]]; cbn [snd]; [apply Hone; lia | apply Hone; lia
                                  | apply Htwo].
  - destruct data as [|d ds].
    + exists []. cbn. rewrite app_nil_r. split; [reflexivity|lia].
    + rewrite Company_update_run by discriminate. apply Hone; lia.
  - destruct data as [|d ds].
    + exists []. cbn. rewrite app_nil_r. split; [reflexivity|lia].
    + rewrite Job_update_run by discriminate. apply Hone; lia.
Qed.

End RepositoryOutcomes.

(** A key no statement finds a row for. *)
Lemma missing_key_not_found_witness :
  let db := constant_db (inr []) in
  let key := JStr "nope" in
  fst (Company_get db key blank_world)
  = inl (NotFoundError "No company: nope")
  /\ fst (Job_get db key blank_world)
     = inl (NotFoundError "No job with ID: nope")
  /\ fst (Company_remove db key blank_world)
     = inl (NotFoundError "No company: nope")
  /\ fst (Job_remove db key blank_world)
     = inl (NotFoundError "No job with ID: nope")
  /\ fst (Company.update db key sample_payload blank_world)
     = inl (NotFoundError "No company: nope")
  /\ fst (Job.update db key sample_payload blank_world)
     = inl (NotFoundError "No job with ID: nope").
Proof.
  intros db key.
  destruct (missing_key_not_found db key sample_payload blank_world)
    as (H1 & H2 & H3 & H4 & H5 & H6).
  rewrite (H1 eq_refl), (H2 eq_refl), (H3 eq_refl), (H4 eq_refl).
  rewrite H5, H6; [| discriminate | reflexivity | discriminate | reflexivity].
  repeat split.
Defined.

(** An executor that answers one row to both statements of [Company.get]. *)
Lemma Company_get_attaches_jobs_witness :
  let row := [("handle", JStr "c1")] in
  fst (Company_get (constant_db (inr [row])) (JStr "c1") blank_world)
  = inr (row, [row])
  /\ issued (snd (Company_get (constant_db (inr [row])) (JStr "c1")
                    blank_world))
     = [(Company_get_sql, [JStr "c1"]); (Company_get_jobs_sql, [JStr "c1"])].
Proof.
  intros row.
  apply (Company_get_attaches_jobs (constant_db (inr [row])) (JStr "c1")
           blank_world row [] [row]); reflexivity.
Defined.

(** An executor that fails on every statement. *)
Lemma executor_failure_propagates_witness :
  fst (Company.create (constant_db (inl (DbError "down"))) duplicate_company
         blank_world) = inl (DbError "down")
  /\ fst (Job.update (constant_db (inl (DbError "down"))) (JNum 1)
            sample_payload blank_world) = inl (DbError "down").
Proof.
  destruct (executor_failure_propagates (constant_db (inl (DbError "down")))
              (DbError "down") (JNum 1) duplicate_company ∅ sample_payload
              blank_world)
    as ((H1 & _) & _ & _ & _ & _ & _ & _ & (H8 & _) & _);
    [reflexivity | discriminate |].
  split; [exact H1 | exact H8].
Defined.

(** An executor that answers one row to every statement. *)
Lemma found_key_returns_first_row_witness :
  let row := [("id", JNum 7)] in
  let db := constant_db (inr [row]) in
  fst (Job_get db (JNum 7) blank_world) = inr row
  /\ fst (Company_remove db (JStr "c1") blank_world) = inr tt
  /\ fst (Job_remove db (JNum 7) blank_world) = inr tt
  /\ fst (Company.update db (JStr "c1") sample_payload blank_world) = inr row
  /\ fst (Job.update db (JNum 7) sample_payload blank_world) = inr row.
Proof.
  intros row db.
  destruct (found_key_returns_first_row db (JNum 7) sample_payload
              blank_world row []) as (H1 & _ & H3 & _ & H5).
  destruct (found_key_returns_first_row db (JStr "c1") sample_payload
              blank_world row []) as (_ & H2 & _ & H4 & _).
  rewrite (H1 eq_refl), (H2 eq_refl), (H3 eq_refl).
  rewrite H4, H5; [| discriminate | reflexivity | discriminate | reflexivity].
  repeat split.
Defined.

(** On an executor that never finds a row, both creations insert. *)
Lemma create_inserts_when_no_duplicate_witness :
  issued (snd (Company.create (constant_db (inr [])) duplicate_company
                 blank_world))
  = [(Company.duplicateCheck_sql, [JStr "c1"]);
     (Company.insert_sql,
      [JStr "c1"; JStr "Again"; JStr "Desc"; JNum 7;
       JStr "http://again.img"])]
  /\ fst (Job.create (constant_db (inr [])) duplicate_job_c1 blank_world)
     = inr None.
Proof.
  destruct (create_inserts_when_no_duplicate (constant_db (inr []))
              duplicate_company blank_world) as (H1 & _).
  destruct (create_inserts_when_no_duplicate (constant_db (inr []))
              duplicate_job_c1 blank_world) as (_ & H2).
  split.
  - exact (proj2 (H1 eq_refl)).
  - exact (proj1 (H2 eq_refl)).
Defined.

(* ===================================================================== *)
(** * Further properties of the filter builders *)
(* ===================================================================== *)

Section FilterBuilders.

(** Names the criteria of a builder and splits on which are present. *)
Ltac by_presence build :=
  unfold build;
  repeat match goal with
         | |- context [prop ?f ?k] =>
             let v := fresh "v" in
             generalize (prop f k); intro v
         end;
  intros;
  repeat match goal with
         | E : truthy _ = truthy _ |- _ => rewrite E; clear E
         | E : defined _ = defined _ |- _ => rewrite E; clear E
         end;
  repeat match goal with
         | |- context [truthy ?v] => destruct (truthy v)
         | |- context [defined ?v] => destruct (defined v)
         end.

(** The text of a filter statement depends on which criteria are present
    and on nothing else: no value of a criterion reaches the text. *)
Theorem findAll_text_ignores_values (f g : gmap string jsval) :
  (truthy (prop f "name") = truthy (prop g "name") ->
   truthy (prop f "minEmployees") = truthy (prop g "minEmployees") ->
   truthy (prop f "maxEmployees") = truthy (prop g "maxEmployees") ->
   fst (Company.findAll_build f) = fst (Company.findAll_build g))
  /\ (truthy (prop f "title") = truthy (prop g "title") ->
      defined (prop f "minSalary") = defined (prop g "minSalary") ->
      defined (prop f "hasEquity") = defined (prop g "hasEquity") ->
      fst (Job.findAll_build f) = fst (Job.findAll_build g)).
Proof.
  split.
  - by_presence @Company.findAll_build; reflexivity.
  - by_presence @Job.findAll_build; reflexivity.
Qed.

(** The bind values are the criteria present, in the order name (or
    title), minimum, maximum (or equity flag): the name as the pattern
    [%name%], the others as given. *)
Theorem findAll_bind_values (f : gmap string jsval) :
  snd (Company.findAll_build f)
  = (if truthy (prop f "name")
     then [JStr ("%" +:+ toString (prop f "name") +:+ "%")] else [])
    ++ (if truthy (prop f "minEmployees")
        then [prop f "minEmployees"] else [])
    ++ (if truthy (prop f "maxEmployees")
        then [prop f "maxEmployees"] else [])
  /\ snd (Job.findAll_build f)
     = (if truthy (prop f "title")
        then [JStr ("%" +:+ toString (prop f "title") +:+ "%")] else [])
       ++ (if defined (prop f "minSalary") then [prop f "minSalary"] else [])
       ++ (if defined (prop f "hasEquity") then [prop f "hasEquity"] else []).
Proof.
  split.
  - by_presence @Company.findAll_build; reflexivity.
  - by_presence @Job.findAll_build; reflexivity.
Qed.

(** The first predicate of a filter statement is introduced by WHERE and
    each further one by AND: WHERE occurs once when a criterion is present
    and never otherwise, AND once per criterion after the first, and the
    ordering clause always closes the text.  The criteria are as many as the
    bind values. *)
Theorem findAll_where_then_and (f : gmap string jsval) :
  (let text := fst (Company.findAll_build f) in
   let n := length (snd (Company.findAll_build f)) in
   occurrences " WHERE " text = Nat.min 1 n
   /\ occurrences " AND " text = (n - 1)%nat
   /\ occurrences " ORDER BY name" text = 1%nat)
  /\ (let text := fst (Job.findAll_build f) in
      let n := length (snd (Job.findAll_build f)) in
      occurrences " WHERE " text = Nat.min 1 n
      /\ occurrences " AND " text = (n - 1)%nat
      /\ occurrences " ORDER BY title" text = 1%nat).
Proof.
  split.
  - by_presence @Company.findAll_build; vm_compute; repeat split.
  - by_presence @Job.findAll_build; vm_compute; repeat split.
Qed.

(** Which predicates a filter statement holds.  In [Company.findAll] a
    criterion counts when its value is truthy, so a minimum or maximum of 0,
    an empty name, [null] and [false] are passed over.  In [Job.findAll] the
    title counts when truthy, but the minimum salary and the equity flag
    count whenever they are not [undefined]: the predicate [equity > 0] is
    written for every given [hasEquity], [false] included. *)
Theorem findAll_predicates_present (f : gmap string jsval) :
  (let text := fst (Company.findAll_build f) in
   occurrences "LOWER(name) LIKE LOWER(" text
   = once_if (truthy (prop f "name"))
   /\ occurrences "num_employees >=" text
      = once_if (truthy (prop f "minEmployees"))
   /\ occurrences "num_employees <=" text
      = once_if (truthy (prop f "maxEmployees")))
  /\ (let text := fst (Job.findAll_build f) in
      occurrences "LOWER(title) LIKE LOWER(" text
      = once_if (truthy (prop f "title"))
      /\ occurrences "salary >=" text
         = once_if (defined (prop f "minSalary"))
      /\ occurrences "equity > 0" text
         = once_if (defined (prop f "hasEquity"))).
Proof.
  split.
  - by_presence @Company.findAll_build; vm_compute; repeat split.
  - by_presence @Job.findAll_build; vm_compute; repeat split.
Qed.

(** Two searches that differ in every value send the same texts. *)
Lemma findAll_text_ignores_values_witness :
  fst (Company.findAll_build filters_net)
  = fst (Company.findAll_build filters_lab)
  /\ fst (Job.findAll_build filters_net) = fst (Job.findAll_build filters_lab).
Proof.
  destruct (findAll_text_ignores_values filters_net filters_lab)
    as (Hc & Hj).
  split; [apply Hc | apply Hj]; reflexivity.
Defined.

End FilterBuilders.

(* ===================================================================== *)
(** * Placeholders of the update statements *)
(* ===================================================================== *)

Section UpdatePlaceholders.

Lemma append_assoc (a b c : string) : (a +:+ b) +:+ c = a +:+ b +:+ c.
Proof.
  induction a as [|x a IH]; [reflexivity|].
  now rewrite !append_cons, IH.
Qed.

Lemma mentions_append (c : ascii) (a b : string) :
  mentions c (a +:+ b) = mentions c a || mentions c b.
Proof.
  induction a as [|x a IH]; [reflexivity|].
  rewrite append_cons. cbn [mentions]. rewrite IH. now rewrite orb_assoc.
Qed.

(** Outside a placeholder, a text without a dollar sign is passed over. *)
Lemma scan_no_dollar (s rest : string) :
  mentions "$"%char s = false ->
  scan (s +:+ rest) None = scan rest None.
Proof.
  induction s as [|c s IH]; intros Hs; [reflexivity|].
  cbn [mentions] in Hs. apply orb_false_iff in Hs as [Hc Hs].
  rewrite append_cons. cbn [scan]. rewrite Hc.
  cbn [app]. now apply IH.
Qed.

(** A character that is neither a digit nor a dollar sign ends the
    placeholder being read. *)
Lemma scan_end_placeholder (c : ascii) (rest : string) (n : nat) :
  digit_of c = None -> Ascii.eqb c "$"%char = false ->
  scan (String c rest) (Some (Some n)) = n :: scan rest None.
Proof. intros Hd Hc. cbn [scan]. now rewrite Hc, Hd. Qed.

(** One assignment, read from outside a placeholder. *)
Lemma scan_assignment (col : string) (n : nat) (rest : string) :
  mentions "$"%char col = false ->
  scan ((dq +:+ col +:+ dq +:+ "=$" +:+ nat_to_string n) +:+ rest) None
  = scan rest (Some (Some n)).
Proof.
  intros Hcol.
  rewrite !append_assoc.
  rewrite (scan_no_dollar dq) by reflexivity.
  rewrite (scan_no_dollar col) by exact Hcol.
  rewrite (scan_no_dollar dq) by reflexivity.
  change ("=$" +:+ nat_to_string n +:+ rest)
    with (String "="%char (String "$"%char (nat_to_string n +:+ rest))).
  cbn [scan Ascii.eqb]. cbn. apply scan_nat_to_string.
Qed.

(** The assignments of a non-empty payload, joined: the placeholders read
    are the indices in order, the last one still open when the text goes
    on. *)
Lemma scan_assignments (jsToSql : gmap string string) (keys : list string) :
  forall (idx : nat) (rest : string),
    keys <> [] ->
    Forall (fun k => mentions "$"%char (columnName jsToSql k) = false) keys ->
    scan (join ", "
            (map_from
               (fun colName i =>
                  dq +:+ columnName jsToSql colName +:+ dq +:+ "=$"
                     +:+ nat_to_string (i + 1))
               idx keys)
          +:+ rest) None
    = seq (idx + 1) (length keys - 1)
      ++ scan rest (Some (Some (idx + length keys)%nat)).
Proof.
  induction keys as [|k ks IH]; intros idx rest Hne Hall; [contradiction|].
  inversion Hall as [|? ? Hk Hks]; subst.
  destruct ks as [|k' ks].
  - cbn [map_from join length seq app Nat.sub].
    rewrite scan_assignment by exact Hk. reflexivity.
  - cbn [map_from join]. cbn [map_from join] in IH.
    rewrite append_assoc. rewrite scan_assignment by exact Hk.
    rewrite append_assoc.
    change (", " +:+ ?x) with (String ","%char (" " +:+ x)).
    rewrite scan_end_placeholder by reflexivity.
    rewrite (scan_no_dollar " ") by reflexivity.
    rewrite (IH (S idx) rest) by (try discriminate; exact Hks).
    cbn [length Nat.sub]. rewrite Nat.sub_0_r.
    replace (S idx + S (length ks))%nat
      with (idx + S (S (length ks)))%nat by lia.
    reflexivity.
Qed.

Lemma seq_snoc_from_one (k : nat) :
  (1 <= k)%nat -> seq 1 (k - 1) ++ [k] = seq 1 k.
Proof.
  intros Hk. destruct k as [|m]; [lia|].
  cbn [Nat.sub]. rewrite Nat.sub_0_r. now rewrite seq_S.
Qed.

(** A statement made of a text, the assignments, a text, the key
    placeholder and a text, the three texts free of dollar signs: the
    placeholders read are 1 to k+1 for k assignments. *)
Lemma scan_update_statement (jsToSql : gmap string string)
    (keys : list string) (pre mid' post' : string) (c1 c2 : ascii) :
  mentions "$"%char pre = false ->
  mentions "$"%char (String c1 mid') = false ->
  mentions "$"%char (String c2 post') = false ->
  digit_of c1 = None -> digit_of c2 = None ->
  keys <> [] ->
  Forall (fun k => mentions "$"%char (columnName jsToSql k) = false) keys ->
  placeholders
    (pre
     +:+ join ", "
           (Array_map
              (fun colName i =>
                 dq +:+ columnName jsToSql colName +:+ dq +:+ "=$"
                    +:+ nat_to_string (i + 1))
              keys)
     +:+ String c1 mid'
     +:+ ("$" +:+ nat_to_string (length keys + 1))
     +:+ String c2 post')
  = seq 1 (length keys + 1).
Proof.
  intros Hpre Hmid Hpost Hc1 Hc2 Hne Hall.
  cbn [mentions] in Hmid, Hpost.
  apply orb_false_iff in Hmid as [Hd1 Hmid].
  apply orb_false_iff in Hpost as [Hd2 Hpost].
  unfold placeholders, Array_map.
  rewrite scan_no_dollar by exact Hpre.
  rewrite scan_assignments by assumption.
  rewrite append_cons, scan_end_placeholder by assumption.
  rewrite scan_no_dollar by exact Hmid.
  rewrite append_assoc.
  change ("$" +:+ ?x) with (String "$"%char x).
  cbn [scan Ascii.eqb Bool.eqb app].
  rewrite scan_nat_to_string.
  rewrite scan_end_placeholder by assumption.
  rewrite <- (append_empty post'), scan_no_dollar by exact Hpost.
  cbn [scan].
  assert (Hk : (1 <= length keys)%nat)
    by (destruct keys; [contradiction | cbn; lia]).
  change (?a :: [?b]) with ([a] ++ [b]). rewrite app_assoc.
  rewrite seq_snoc_from_one by lia.
  rewrite Nat.add_1_r. rewrite (seq_S (length keys) 1).
  reflexivity.
Qed.

Lemma Company_update_sql_shape (setCols handleVarIdx : string) :
  Company.update_sql setCols handleVarIdx
  = ("UPDATE companies " +:+ nl +:+ "                      SET ")
    +:+ setCols
    +:+ (" " +:+ nl +:+ "                      WHERE handle = ")
    +:+ handleVarIdx
    +:+ (" " +:+ nl
         +:+ "                      RETURNING handle, " +:+ nl
         +:+ "                                name, " +:+ nl
         +:+ "                                description, " +:+ nl
         +:+ "                                num_employees AS "
         +:+ q "numEmployees" +:+ ", " +:+ nl
         +:+ "                                logo_url AS " +:+ q "logoUrl").
Proof.
  unfold Company.update_sql, lines. cbn [join].
  now rewrite !append_assoc.
Qed.

Lemma Job_update_sql_shape (setCols idVarIdx : string) :
  Job.update_sql setCols idVarIdx
  = (nl +:+ "      UPDATE jobs " +:+ nl +:+ "      SET ")
    +:+ setCols
    +:+ (nl +:+ "      WHERE id = ")
    +:+ idVarIdx
    +:+ (nl
         +:+ "      RETURNING id, title, salary, equity, company_handle AS "
         +:+ q "companyHandle").
Proof.
  unfold Job.update_sql, lines. cbn [join].
  now rewrite !append_assoc.
Qed.

Lemma Company_update_text_placeholders (data : object) :
  data <> [] ->
  Forall (fun k => mentions "$"%char (columnName Company.jsToSql k) = false)
    (Object_keys data) ->
  placeholders (Company_update_text data) = seq 1 (length data + 1).
Proof.
  intros Hne Hall. unfold Company_update_text.
  rewrite Company_update_sql_shape.
  assert (Hl : length data = length (Object_keys data))
    by (unfold Object_keys; now rewrite List.length_map).
  rewrite Hl.
  apply (scan_update_statement Company.jsToSql (Object_keys data));
    try reflexivity; try assumption.
  intros Hk. destruct data; [contradiction | discriminate Hk].
Qed.

Lemma Job_update_text_placeholders (data : object) :
  data <> [] ->
  Forall (fun k => mentions "$"%char (columnName ∅ k) = false)
    (Object_keys data) ->
  placeholders (Job_update_text data) = seq 1 (length data + 1).
Proof.
  intros Hne Hall. unfold Job_update_text.
  rewrite Job_update_sql_shape.
  assert (Hl : length data = length (Object_keys data))
    by (unfold Object_keys; now rewrite List.length_map).
  rewrite Hl.
  apply (scan_update_statement ∅ (Object_keys data));
    try reflexivity; try assumption.
  intros Hk. destruct data; [contradiction | discriminate Hk].
Qed.

(** When no column of the payload holds a dollar sign, the assignments
    [sqlForPartialUpdate] returns carry the placeholders 1 to k, as many as
    the values it returns. *)
Theorem sqlForPartialUpdate_placeholders (data : object)
    (jsToSql : gmap string string) (clause : setClause) :
  Forall (fun k => mentions "$"%char (columnName jsToSql k) = false)
    (Object_keys data) ->
  sqlForPartialUpdate data jsToSql = inr clause ->
  placeholders (setCols clause) = seq 1 (length (values clause)).
Proof.
  intros Hall Hc.
  assert (Hne : data <> []) by (intros ->; discriminate Hc).
  rewrite sqlForPartialUpdate_nonempty in Hc by exact Hne.
  injection Hc as <-. cbn [setCols values].
  unfold placeholders, Array_map.
  match goal with
  | |- scan ?t None = _ => rewrite <- (append_empty t)
  end.
  rewrite scan_assignments; [| |exact Hall].
  2:{ intros Hk. destruct data; [contradiction | discriminate Hk]. }
  cbn [scan]. unfold Object_values, Object_keys.
  rewrite !List.length_map.
  apply seq_snoc_from_one. destruct data; [contradiction | cbn; lia].
Qed.

End UpdatePlaceholders.

Section UpdateStatements.
Context {DB : Type} (db_query : executor DB).

(** The statement an update issues on a non-empty payload whose columns
    hold no dollar sign: its placeholders are 1 to n for its n bind values,
    the values of the payload in order and the key last. *)
Theorem update_statement_placeholders (key : jsval) (data : object)
    (w : world DB) :
  data <> [] ->
  (Forall (fun k => mentions "$"%char (columnName Company.jsToSql k) = false)
     (Object_keys data) ->
   exists text,
     issued (snd (Company.update db_query key data w))
     = issued w ++ [(text, Object_values data ++ [key])]
     /\ placeholders text
        = seq 1 (length (Object_values data ++ [key])))
  /\ (Forall (fun k => mentions "$"%char k = false) (Object_keys data) ->
      exists text,
        issued (snd (Job.update db_query key data w))
        = issued w ++ [(text, Object_values data ++ [key])]
        /\ placeholders text
           = seq 1 (length (Object_values data ++ [key]))).
Proof.
  intros Hne.
  assert (Hl : length (Object_values data ++ [key]) = (length data + 1)%nat).
  { rewrite length_app. unfold Object_values.
    now rewrite List.length_map. }
  split; intros Hall.
  - exists (Company_update_text data).
    rewrite Company_update_run by exact Hne.
    split; [reflexivity|]. rewrite Hl.
    now apply Company_update_text_placeholders.
  - exists (Job_update_text data).
    rewrite Job_update_run by exact Hne.
    split; [reflexivity|]. rewrite Hl.
    apply Job_update_text_placeholders; [exact Hne|].
    eapply Forall_impl; [exact Hall|].
    intros k Hk. unfold columnName. rewrite lookup_empty.
    destruct (Object_prototype_member k) as [text|] eqn:Hm; [|exact Hk].
    exact (Object_prototype_no_dollar k text Hm).
Qed.

(** The text of the statement an update issues depends on the keys of the
    payload only: two payloads with the same keys in the same order give the
    same text, and differ in the bind values alone. *)
Theorem update_text_ignores_values (key : jsval) (data data' : object)
    (w : world DB) :
  data <> [] ->
  Object_keys data = Object_keys data' ->
  (exists text,
      issued (snd (Company.update db_query key data w))
      = issued w ++ [(text, Object_values data ++ [key])]
      /\ issued (snd (Company.update db_query key data' w))
         = issued w ++ [(text, Object_values data' ++ [key])])
  /\ (exists text,
         issued (snd (Job.update db_query key data w))
         = issued w ++ [(text, Object_values data ++ [key])]
         /\ issued (snd (Job.update db_query key data' w))
            = issued w ++ [(text, Object_values data' ++ [key])]).
Proof.
  intros Hne Hk.
  assert (Hne' : data' <> []).
  { destruct data'; [|discriminate]. destruct data; [contradiction|].
    discriminate Hk. }
  assert (Hl : length data = length data').
  { rewrite <- (List.length_map fst data), <- (List.length_map fst data').
    exact (f_equal (@length string) Hk). }
  split.
  - exists (Company_update_text data).
    rewrite !Company_update_run by assumption.
    split; [reflexivity|].
    unfold Company_update_text. now rewrite Hk, Hl.
  - exists (Job_update_text data).
    rewrite !Job_update_run by assumption.
    split; [reflexivity|].
    unfold Job_update_text. now rewrite Hk, Hl.
Qed.

End UpdateStatements.

(** The assignments of the documentation's example. *)
Lemma sqlForPartialUpdate_placeholders_witness :
  let clause :=
    {| setCols := q "first_name" +:+ "=$1, " +:+ q "age" +:+ "=$2";
       values := [JStr "Aliya"; JNum 32] |} in
  placeholders (setCols clause) = seq 1 (length (values clause)).
Proof.
  intros clause.
  apply (sqlForPartialUpdate_placeholders sample_payload sample_table clause).
  - repeat constructor.
  - vm_compute. reflexivity.
Defined.

(** The statements of the two updates on the sample payload. *)
Lemma update_statement_placeholders_witness :
  (exists text,
      issued (snd (Company.update (constant_db (inr [])) (JStr "c1")
                     sample_payload blank_world))
      = issued blank_world
        ++ [(text, Object_values sample_payload ++ [JStr "c1"])]
      /\ placeholders text
         = seq 1 (length (Object_values sample_payload ++ [JStr "c1"])))
  /\ (exists text,
         issued (snd (Job.update (constant_db (inr [])) (JStr "c1")
                        sample_payload blank_world))
         = issued blank_world
           ++ [(text, Object_values sample_payload ++ [JStr "c1"])]
         /\ placeholders text
            = seq 1 (length (Object_values sample_payload ++ [JStr "c1"]))).
Proof.
  destruct (update_statement_placeholders (constant_db (inr [])) (JStr "c1")
              sample_payload blank_world) as (Hc & Hj); [discriminate|].
  split; [apply Hc | apply Hj]; repeat constructor.
Defined.

(** Two payloads with the keys firstName and age. *)
Lemma update_text_ignores_values_witness :
  exists text,
    issued (snd (Job.update (constant_db (inr [])) (JNum 1)
                   sample_payload blank_world))
    = [(text, [JStr "Aliya"; JNum 32; JNum 1])]
    /\ issued (snd (Job.update (constant_db (inr [])) (JNum 1)
                      sample_payload_other blank_world))
       = [(text, [JStr "Bo"; JNum 1; JNum 1])].
Proof.
  destruct (update_text_ignores_values (constant_db (inr [])) (JNum 1)
              sample_payload sample_payload_other blank_world)
    as (_ & Hj); [discriminate | reflexivity |].
  exact Hj.
Defined.

(* ===================================================================== *)
(** * The assignments of a partial update *)
(* ===================================================================== *)

Section PartialUpdateAssignments.
Context {DB : Type} (db_query : executor DB).




End PartialUpdateAssignments.



(* ===================================================================== *)
(** * Further properties of middleware/auth.js *)
(* ===================================================================== *)

Section AdminRoutes.

Lemma prefix_append (a b s : string) :
  String.prefix (a +:+ b) s = true -> String.prefix a s = true.
Proof.
  revert s. induction a as [|x a IH]; intros s Hp;
    [destruct s; reflexivity|].
  rewrite append_cons in Hp. destruct s as [|y s]; [discriminate Hp|].
  cbn [String.prefix] in *.
  destruct (ascii_dec x y); [now apply IH | discriminate Hp].
Qed.

Lemma Array_some_pure {A : Type} (f : A -> result bool) (p : A -> bool)
    (arr : list A) :
  (forall x, f x = inr (p x)) ->
  Array_some f arr = inr (existsb p arr).
Proof.
  intros Hf. induction arr as [|x rest IH]; [reflexivity|].
  cbn [Array_some existsb]. rewrite Hf.
  destruct (p x); [reflexivity | exact IH].
Qed.

Lemma routeMatches_defined (req : request) (m url : string) (r : route) :
  method req = Some m -> originalUrl req = Some url ->
  routeMatches req r
  = inr (String.eqb (route_method r) m && startsWith url (route_path r)).
Proof.
  intros Hm Hu. unfold routeMatches. rewrite Hm, Hu.
  case_bool_decide as Hd.
  - injection Hd as Hd. rewrite Hd. now rewrite String.eqb_refl.
  - destruct (String.eqb_spec (route_method r) m) as [He|_];
      [exfalso; apply Hd; now rewrite He | reflexivity].
Qed.

(** Which requests [isAdminActionRoute] takes for admin actions.  A POST
    request is one when its URL starts with a slash; a PATCH or DELETE
    request only when its URL starts with the literal text "/:handle" or
    "/:username"; a GET request when its URL starts with "/users" or the
    literal "/:username"; a request of another method never.  The path
    patterns of the tables are compared as plain text. *)
Theorem isAdminActionRoute_table (req : request) (m url : string) :
  method req = Some m -> originalUrl req = Some url ->
  isAdminActionRoute req
  = inr (String.eqb m "POST" && startsWith url "/"
         || (String.eqb m "PATCH" || String.eqb m "DELETE")
            && (startsWith url "/:handle" || startsWith url "/:username")
         || String.eqb m "GET"
            && (startsWith url "/users" || startsWith url "/:username")).
Proof.
  intros Hm Hu. unfold isAdminActionRoute.
  rewrite (Array_some_pure _
             (fun r => String.eqb (route_method r) m
                       && startsWith url (route_path r)))
    by (intros r; now apply routeMatches_defined).
  cbn [companyActionRoutes userActionRoutes app existsb
       route_method route_path].
  rewrite !(String.eqb_sym _ m).
  assert (Hus : startsWith url "/user" = true -> startsWith url "/" = true)
    by (apply (prefix_append "/" "user")).
  f_equal.
  destruct (String.eqb m "POST"), (String.eqb m "PATCH"),
    (String.eqb m "DELETE"), (String.eqb m "GET"),
    (startsWith url "/:handle"), (startsWith url "/:username"),
    (startsWith url "/users"), (startsWith url "/"),
    (startsWith url "/user");
    try reflexivity; discriminate (Hus eq_refl).
Qed.

(** A request without a method is never an admin action, and reading it
    does not throw, whatever else it lacks. *)
Lemma isAdminActionRoute_no_method (req : request) :
  method req = None -> isAdminActionRoute req = inr false.
Proof.
  intros Hm. unfold isAdminActionRoute.
  rewrite (Array_some_pure _ (fun _ => false)); [reflexivity|].
  intros r. unfold routeMatches. rewrite Hm.
  now rewrite bool_decide_eq_false_2 by discriminate.
Qed.

Lemma not_literal_pattern (url : string) :
  startsWith url "/:" = false ->
  startsWith url "/:handle" = false /\ startsWith url "/:username" = false.
Proof.
  intros Hp. split.
  - destruct (startsWith url "/:handle") eqn:E; [|reflexivity].
    apply (prefix_append "/:" "handle") in E. unfold startsWith in Hp.
    congruence.
  - destruct (startsWith url "/:username") eqn:E; [|reflexivity].
    apply (prefix_append "/:" "username") in E. unfold startsWith in Hp.
    congruence.
Qed.

(** Being an admin does not open PATCH and DELETE.  On a PATCH or DELETE
    request whose URL does not start with the literal "/:", the check made
    is the self-access one, for an admin as for anyone: unless the
    [username] parameter is the user's own name, the answer is
    [ForbiddenError]. *)
Theorem PATCH_DELETE_refused_for_admin_too (req : request) (res : locals)
    (u : user) (m url : string) (ps : gmap string string) :
  locals_user res = Some u ->
  method req = Some m -> m = "PATCH" \/ m = "DELETE" ->
  originalUrl req = Some url -> startsWith url "/:" = false ->
  params req = Some ps -> ps !! "username" <> Some (username u) ->
  isAdminActionRoute req = inr false
  /\ signals (ensureLoggedIn req res) = [NextErr forbidden_self; Next]
  /\ decide_request req res = Some DENY_forbidden.
Proof.
  intros Hl Hm Hpd Hu Hurl Hp Hn.
  destruct (not_literal_pattern url Hurl) as [Hh Hun].
  assert (Hr : isAdminActionRoute req = inr false).
  { rewrite (isAdminActionRoute_table req m url Hm Hu), Hh, Hun.
    destruct Hpd as [-> | ->]; reflexivity. }
  split; [exact Hr|]. unfold decide_request.
  rewrite ensureLoggedIn_signals, ensureAuthenticatedAsSelf_signals.
  rewrite Hl, Hr, Hp. rewrite bool_decide_eq_false_2 by exact Hn.
  split; reflexivity.
Qed.

(** How often [ensureLoggedIn] calls the continuation: twice when there is
    a user and the request is not an admin action, once in every other
    case; never not at all.  [ensureAuthenticatedAsSelf] calls it exactly
    once.  Neither lets an error escape: both return. *)
Theorem continuation_call_count (req : request) (res : locals) :
  length (signals (ensureLoggedIn req res))
  = match locals_user res, isAdminActionRoute req with
    | Some _, inr false => 2%nat
    | _, _ => 1%nat
    end
  /\ length (signals (ensureAuthenticatedAsSelf req res)) = 1%nat
  /\ snd (ensureLoggedIn req res) = inr tt
  /\ snd (ensureAuthenticatedAsSelf req res) = inr tt.
Proof.
  assert (Hs : length (signals (ensureAuthenticatedAsSelf req res)) = 1%nat).
  { rewrite ensureAuthenticatedAsSelf_signals.
    destruct (locals_user res); [|reflexivity].
    destruct (params req); [|reflexivity].
    now case_bool_decide. }
  assert (Hr : snd (ensureAuthenticatedAsSelf req res) = inr tt).
  { unfold ensureAuthenticatedAsSelf.
    destruct (locals_user res); [|reflexivity].
    destruct (params req); [|reflexivity].
    cbn. now case_bool_decide. }
  split; [|split; [exact Hs|split; [|exact Hr]]].
  - rewrite ensureLoggedIn_signals.
    destruct (locals_user res); [|reflexivity].
    destruct (isAdminActionRoute req) as [e|[|]]; [reflexivity| |].
    + now destruct (isAdmin u).
    + rewrite length_app, Hs. reflexivity.
  - unfold ensureLoggedIn.
    destruct (locals_user res) as [u|]; [|reflexivity].
    destruct (isAdminActionRoute req) as [e|[|]]; [reflexivity| |].
    + now destruct (isAdmin u).
    + cbn. destruct (ensureAuthenticatedAsSelf req res) as [tr [e|[]]];
        [discriminate Hr | reflexivity].
Qed.

(** On a POST request the decision is the [isAdmin] flag: an admin is let
    through with a single call [next()], whatever the URL and the
    parameters, and only an admin is. *)
Theorem POST_allowed_iff_admin (req : request) (res : locals) (u : user)
    (url : string) :
  method req = Some "POST" ->
  originalUrl req = Some url -> startsWith url "/" = true ->
  locals_user res = Some u ->
  (decide_request req res = Some ALLOW <-> isAdmin u = true)
  /\ (isAdmin u = true -> signals (ensureLoggedIn req res) = [Next]).
Proof.
  intros Hm Hu Hs Hl.
  pose proof (isAdminActionRoute_POST req url Hm Hu Hs) as Hr.
  unfold decide_request. rewrite ensureLoggedIn_signals, Hl, Hr.
  destruct (isAdmin u); cbn; split; try split; intros; try reflexivity;
    discriminate.
Qed.

(** The errors [ensureLoggedIn] hands to the continuation.  On a request
    whose method, URL and parameters are all defined they are the three of
    the middleware: authentication required, admin privileges required, no
    permission; a [TypeError] can only come from a request that lacks one of
    the three. *)
Theorem ensureLoggedIn_errors (req : request) (res : locals) (e : error) :
  In (NextErr e) (signals (ensureLoggedIn req res)) ->
  (e = unauthorized \/ e = forbidden_admin \/ e = forbidden_self)
  \/ (e = TypeError
      /\ (originalUrl req = None \/ params req = None)).
Proof.
  rewrite ensureLoggedIn_signals, ensureAuthenticatedAsSelf_signals.
  destruct (locals_user res) as [u|].
  2:{ intros [[= <-]|[]]. left. now left. }
  destruct (isAdminActionRoute req) as [e'|[|]] eqn:Hr.
  - intros [[= <-]|[]]. right.
    destruct (method req) as [m|] eqn:Hm.
    + destruct (originalUrl req) as [url|] eqn:Hu.
      * rewrite (isAdminActionRoute_table req m url Hm Hu) in Hr.
        discriminate Hr.
      * unfold isAdminActionRoute in Hr.
        assert (Hall : forall r, routeMatches req r = inl TypeError
                                 \/ routeMatches req r = inr false).
        { intros r. unfold routeMatches. rewrite Hu.
          case_bool_decide; [now left | now right]. }
        revert Hr. generalize (companyActionRoutes ++ userActionRoutes).
        intros l. induction l as [|r l IH]; [discriminate|].
        cbn [Array_some]. destruct (Hall r) as [-> | ->].
        -- intros [= <-]. split; [reflexivity | now left].
        -- exact IH.
    + rewrite (isAdminActionRoute_no_method req Hm) in Hr. discriminate Hr.
  - destruct (isAdmin u); intros [[= <-]|[]]. left. right. now left.
  - destruct (params req) as [ps|].
    + case_bool_decide; intros [H1|[H1|[]]]; try discriminate H1.
      injection H1 as <-. left. right. now right.
    + intros [H1|[H1|[]]]; try discriminate H1.
      injection H1 as <-. right. split; [reflexivity | now right].
Qed.

End AdminRoutes.

(** The update of a company is not taken for an admin action. *)
Lemma isAdminActionRoute_table_witness :
  isAdminActionRoute req_patch_company = inr false.
Proof.
  exact (isAdminActionRoute_table req_patch_company "PATCH" "/companies/c1"
           eq_refl eq_refl).
Defined.

(** An admin updating a company is refused. *)
Lemma PATCH_DELETE_refused_for_admin_too_witness :
  isAdminActionRoute req_patch_company = inr false
  /\ signals (ensureLoggedIn req_patch_company admin_logged_in)
     = [NextErr forbidden_self; Next]
  /\ decide_request req_patch_company admin_logged_in = Some DENY_forbidden.
Proof.
  apply (PATCH_DELETE_refused_for_admin_too req_patch_company
           admin_logged_in sample_admin "PATCH" "/companies/c1"
           {[ "handle" := "c1" ]});
    try reflexivity.
  - left. reflexivity.
  - vm_compute. discriminate.
Defined.

(** An admin and another user posting a job. *)
Lemma POST_allowed_iff_admin_witness :
  signals (ensureLoggedIn req_post admin_logged_in) = [Next]
  /\ decide_request req_post logged_in <> Some ALLOW.
Proof.
  split.
  - apply (POST_allowed_iff_admin req_post admin_logged_in sample_admin
             "/jobs"); reflexivity.
  - destruct (POST_allowed_iff_admin req_post logged_in sample_user "/jobs")
      as (Hiff & _); try reflexivity.
    intros Ha. apply Hiff in Ha. discriminate Ha.
Defined.

(** The error of a refused update is the one of the self-access check. *)
Lemma ensureLoggedIn_errors_witness :
  (forbidden_self = unauthorized \/ forbidden_self = forbidden_admin
   \/ forbidden_self = forbidden_self)
  \/ (forbidden_self = TypeError
      /\ (originalUrl req_patch_company = None
          \/ params req_patch_company = None)).
Proof.
  apply (ensureLoggedIn_errors req_patch_company admin_logged_in
           forbidden_self).
  vm_compute. left. reflexivity.
Defined.

(* ===================================================================== *)
(** * Properties of authenticateJWT *)
(* ===================================================================== *)

Section Authenticate.
Context (verify : string -> result user).

(** Everything [authenticateJWT] does, by the header and the verifier. *)
Lemma authenticateJWT_run (headers : option (gmap string string))
    (res : locals) :
  authenticateJWT verify headers res
  = ([Next],
     inr (match headers ≫= (fun h => h !! "authorization") with
          | Some h =>
              if String.eqb h EmptyString then res
              else match verify (trim (replaceBearer h)) with
                   | inr payload => {| locals_user := Some payload |}
                   | inl _ => res
                   end
          | None => res
          end)).
Proof.
  unfold authenticateJWT.
  destruct (headers ≫= _) as [h|]; [|reflexivity].
  destruct (String.eqb h EmptyString); [reflexivity|].
  cbn. destruct (verify _); reflexivity.
Qed.

Lemma trim_no_space (t : string) :
  any_char isWhiteSpace t = false -> trim t = t.
Proof.
  intros Ht. unfold trim.
  assert (Hs : trimStart t = t).
  { destruct t as [|c r]; [reflexivity|]. cbn [any_char] in Ht.
    apply orb_false_iff in Ht as [Hc _]. cbn [trimStart]. now rewrite Hc. }
  rewrite Hs. clear Hs.
  induction t as [|c r IH]; [reflexivity|].
  cbn [any_char] in Ht. apply orb_false_iff in Ht as [Hc Hr].
  cbn [trimEnd]. rewrite (IH Hr), Hc. now destruct r.
Qed.

Lemma replaceBearer_prefixed (t : string) :
  replaceBearer ("Bearer " +:+ t) = t /\ replaceBearer ("bearer " +:+ t) = t.
Proof. destruct t; split; reflexivity. Qed.


(** A header [Bearer <token>] or [bearer <token>], the token free of white
    space: the verifier is given exactly the token, and when it accepts,
    the user of the request is the payload it returns. *)
Theorem authenticateJWT_bearer_token (hs : gmap string string)
    (token : string) (payload : user) (res : locals) :
  hs !! "authorization" = Some ("Bearer " +:+ token)
  \/ hs !! "authorization" = Some ("bearer " +:+ token) ->
  any_char isWhiteSpace token = false ->
  verify token = inr payload ->
  authenticateJWT verify (Some hs) res
  = ([Next], inr {| locals_user := Some payload |}).
Proof.
  intros Hh Ht Hv. rewrite authenticateJWT_run. cbn [mbind option_bind].
  destruct (replaceBearer_prefixed token) as [HB Hb].
  destruct Hh as [-> | ->]; cbn [String.eqb].
  - rewrite HB, trim_no_space, Hv by exact Ht. reflexivity.
  - rewrite Hb, trim_no_space, Hv by exact Ht. reflexivity.
Qed.

(** A request without a token, or with one the verifier rejects, goes on
    as a request without a user, and [ensureLoggedIn] answers it with
    [UnauthorizedError], whatever it asks for. *)
Theorem rejected_token_is_unauthenticated
    (headers : option (gmap string string)) (req : request)
    (res' : locals) :
  snd (authenticateJWT verify headers anonymous) = inr res' ->
  (forall h, headers ≫= (fun hs => hs !! "authorization") = Some h ->
             h <> EmptyString ->
             exists e, verify (trim (replaceBearer h)) = inl e) ->
  res' = anonymous
  /\ signals (ensureLoggedIn req res') = [NextErr unauthorized]
  /\ decide_request req res' = Some DENY_unauthenticated.
Proof.
  intros Hr Hrej. rewrite authenticateJWT_run in Hr. cbn [snd] in Hr.
  assert (Ha : res' = anonymous).
  { destruct (headers ≫= (fun hs => hs !! "authorization")) as [h|];
      [|now injection Hr].
    destruct (String.eqb_spec h EmptyString) as [He0|Hh];
      [now injection Hr|].
    destruct (Hrej h eq_refl Hh) as [e He]. rewrite He in Hr.
    now injection Hr. }
  split; [exact Ha|]. subst res'. unfold decide_request.
  rewrite ensureLoggedIn_signals. split; reflexivity.
Qed.

End Authenticate.

(** The header of auth.test.js, with a token the sample verifier knows. *)
Lemma authenticateJWT_bearer_token_witness :
  authenticateJWT sample_verify
    (Some {[ "authorization" := "Bearer abc.def.ghi" ]}) anonymous
  = ([Next], inr logged_in).
Proof.
  apply (authenticateJWT_bearer_token sample_verify
           {[ "authorization" := "Bearer abc.def.ghi" ]} "abc.def.ghi"
           sample_user anonymous).
  - left. reflexivity.
  - reflexivity.
  - reflexivity.
Defined.

(** A token the sample verifier does not know. *)
Lemma rejected_token_is_unauthenticated_witness :
  signals (ensureLoggedIn req_self anonymous) = [NextErr unauthorized].
Proof.
  destruct (rejected_token_is_unauthenticated sample_verify
              (Some {[ "authorization" := "Bearer wrong" ]}) req_self
              anonymous) as (_ & Hs & _).
  - reflexivity.
  - intros h Hh _. vm_compute in Hh. injection Hh as <-.
    exists (DbError "invalid token"). reflexivity.
  - exact Hs.
Defined.

(* ===================================================================== *)
(** * Properties of routes/jobs.js *)
(* ===================================================================== *)

Section JobRouteOutcomes.
Context {DB : Type} (db_query : executor DB).

(** The handlers of POST / and PATCH /:id read [jsonschema], which the
    file does not bind: for every body they hand a [ReferenceError] to the
    continuation, and no statement is issued; no job is created or updated
    through them. *)
Theorem job_routes_unbound_jsonschema (fields : gmap string jsval)
    (id : jsval) (data : object) (w : world DB) :
  post_job db_query fields w = (NextWith (ReferenceError "jsonschema"), w)
  /\ patch_job db_query id data w
     = (NextWith (ReferenceError "jsonschema"), w).
Proof. split; reflexivity. Qed.

(** The handlers of GET /, GET /:id and DELETE /:id.  Each issues one
    statement.  The list replies with the rows of the executor; the read
    replies with the first row found and hands [NotFoundError] to the
    continuation when there is none; the deletion replies [{ deleted: id }]
    exactly when the DELETE answers a row. *)
Theorem job_routes_outcomes (filters : gmap string jsval) (id : jsval)
    (w : world DB) :
  (forall rows,
     fst (db_query (fst (Job.findAll_build filters))
            (snd (Job.findAll_build filters)) (store w)) = inr rows ->
     fst (get_jobs db_query filters w) = Json 200 "jobs" (Rows rows))
  /\ (fst (db_query Job_get_sql [id] (store w)) = inr [] ->
      fst (get_job db_query id w)
      = NextWith (Thrown (NotFoundError
                            ("No job with ID: " +:+ toString id))))
  /\ (forall job others,
        fst (db_query Job_get_sql [id] (store w)) = inr (job :: others) ->
        fst (get_job db_query id w) = Json 200 "job" (Row (Some job)))
  /\ (fst (delete_job db_query id w) = Json 200 "deleted" (Value id)
      <-> exists row others,
            fst (db_query Job_remove_sql [id] (store w))
            = inr (row :: others))
  /\ issues_between 1 1 w (snd (get_jobs db_query filters w))
  /\ issues_between 1 1 w (snd (get_job db_query id w))
  /\ issues_between 1 1 w (snd (delete_job db_query id w)).
Proof.
  assert (Hone : forall text vals,
             issues_between 1 1 w (after db_query w text vals)).
  { intros text vals. exists [(text, vals)]. cbn. split; [reflexivity|lia]. }
  unfold get_jobs, get_job, delete_job, handler, await, mbind, Try_bind,
    mret, Try_ret.
  rewrite Job_findAll_run, Job_get_run, Job_remove_run.
  repeat split.
  - intros rows Hq. cbn [fst]. now rewrite Hq.
  - intros Hq. now rewrite Hq.
  - intros job others Hq. now rewrite Hq.
  - destruct (fst (db_query Job_remove_sql _ _)) as [e|[|row rows]];
      cbn [fst]; intros Hd; try discriminate Hd. now exists row, rows.
  - intros (row & others & Hq). now rewrite Hq.
  - destruct (fst (db_query _ _ _)); apply Hone.
  - destruct (fst (db_query _ _ _)) as [e|[|row rows]]; apply Hone.
  - destruct (fst (db_query _ _ _)) as [e|[|row rows]]; apply Hone.
Qed.

End JobRouteOutcomes.

(** The three handlers on executors that find nothing, or one row. *)
Lemma job_routes_outcomes_witness :
  fst (get_jobs (constant_db (inr [])) ∅ blank_world)
  = Json 200 "jobs" (Rows [])
  /\ fst (get_job (constant_db (inr [])) (JNum 7) blank_world)
     = NextWith (Thrown (NotFoundError "No job with ID: 7"))
  /\ fst (get_job (constant_db (inr [[("id", JNum 7)]])) (JNum 7)
            blank_world)
     = Json 200 "job" (Row (Some [("id", JNum 7)])).
Proof.
  destruct (job_routes_outcomes (constant_db (inr [])) ∅ (JNum 7)
              blank_world) as (H1 & H2 & _).
  destruct (job_routes_outcomes (constant_db (inr [[("id", JNum 7)]])) ∅
              (JNum 7) blank_world) as (_ & _ & H3 & _).
  split; [exact (H1 [] eq_refl)|].
  split; [exact (H2 eq_refl)|].
  exact (H3 [("id", JNum 7)] [] eq_refl).
Defined.

(* ===================================================================== *)
(** * Reading a user, and the searches of the sample filters *)
(* ===================================================================== *)

Section SelfRead.

(** Reading a user is an admin action even for the user read: a GET
    request whose URL starts with "/users" is matched by the entry for the
    list of users, so for a user who is not an admin the answer is
    [ForbiddenError], the [username] parameter being the own name or not. *)
Theorem GET_users_admin_only (req : request) (res : locals) (u : user)
    (url : string) :
  method req = Some "GET" ->
  originalUrl req = Some url -> startsWith url "/users" = true ->
  locals_user res = Some u -> isAdmin u = false ->
  isAdminActionRoute req = inr true
  /\ signals (ensureLoggedIn req res) = [NextErr forbidden_admin]
  /\ decide_request req res = Some DENY_forbidden.
Proof.
  intros Hm Hu Hs Hl Ha.
  assert (Hr : isAdminActionRoute req = inr true).
  { rewrite (isAdminActionRoute_table req "GET" url Hm Hu), Hs.
    destruct (startsWith url "/"), (startsWith url "/:handle"),
      (startsWith url "/:username"); reflexivity. }
  split; [exact Hr|]. unfold decide_request.
  rewrite ensureLoggedIn_signals, Hl, Hr, Ha. split; reflexivity.
Qed.

End SelfRead.

(** The sample user reading the own account. *)
Lemma GET_users_admin_only_witness :
  isAdminActionRoute req_get_self = inr true
  /\ signals (ensureLoggedIn req_get_self logged_in)
     = [NextErr forbidden_admin]
  /\ decide_request req_get_self logged_in = Some DENY_forbidden.
Proof.
  apply (GET_users_admin_only req_get_self logged_in sample_user
           "/users/u1"); reflexivity.
Defined.

(** A search by name, minimum and maximum. *)
Lemma Company_findAll_placeholders_with_name_witness :
  placeholders (fst (Company.findAll_build filters_named))
  = [1%nat; 2%nat; 3%nat].
Proof.
  exact (Company_findAll_placeholders_with_name filters_named eq_refl).
Defined.

(** A search by maximum alone. *)
Lemma Company_findAll_placeholders_without_name_witness :
  head (placeholders (fst (Company.findAll_build filters_max_only)))
  = Some 2%nat.
Proof.
  exact (Company_findAll_placeholders_without_name filters_max_only
           eq_refl eq_refl).
Defined.

(** A search with the equity flag set to [false]. *)
Lemma Job_findAll_hasEquity_surplus_witness :
  length (snd (Job.findAll_build filters_equity))
  = S (length (placeholders (fst (Job.findAll_build filters_equity)))).
Proof.
  exact (Job_findAll_hasEquity_surplus filters_equity eq_refl).
Defined.
